(** * insta-flips: the price-resolution and craft-margin engine

    A shallow embedding of the server source that defines [getItemPrice],
    [computeMarginForItem], [parseRecipeSlots], [fetchLBIN], the recipe
    cache, [fetchBazaarPrices], [getTop25Formatted] and the two routes, with
    the theorems that settle the specification's claims about it and
    further properties of the code.

    Modelling conventions

    - JavaScript numbers are exact rationals ([Q]) plus [NaN]; rounding
      error, infinities and the exponent notation that number-to-string
      conversion switches to outside [1e-6, 1e21) are not represented.  The
      one place where rounding error shows in a result, the quotient and
      product behind [marginPercent], is computed in binary64 as the code
      does.
    - Strings are [string]s of bytes; case mapping and white space are the
      ASCII ones.
    - Parsed JSON is the type [value]; an object is the list of its own
      properties in enumeration order, with distinct keys.
    - The three SQLite tables and the two in-memory caches are finite maps;
      a missing row ([undefined] from [db.get]) is [None]; the store never
      fails.
    - A provider call (an HTTP [fetch]) yields an optional parsed body and
      takes some time, both given by the environment; every call to the
      auction or the recipe provider is recorded in a trace.
    - One call runs to completion without other tasks interleaving.
    - [getItemPrice] is recursive through recipes that come from outside,
      so it is defined by recursion on a fuel counter; theorems that say it
      returns give a fuel that suffices. *)

From Stdlib Require Import ZArith QArith Qround Qabs Lqa Ascii String List Bool Lia.
From Stdlib Require PrimFloat FloatOps SpecFloat.
From stdpp Require Import gmap strings list fin_maps fin_sets sorting.

Open Scope Z_scope.
Open Scope string_scope.

(** ** JavaScript values and primitives *)

Module JS.

Inductive number : Type :=
| NaN
| Num (q : Q).

#[warnings="-register-all"]
Inductive value : Type :=
| VNull
| VBool (b : bool)
| VNumber (n : number)
| VString (s : string)
| VArray (items : list value)
| VObject (fields : list (string * value)).

Definition VInt (z : Z) : value := VNumber (Num (inject_Z z)).

(** [!v] is false exactly on the truthy values. *)
Definition truthy (v : value) : bool :=
  match v with
  | VNull => false
  | VBool b => b
  | VNumber NaN => false
  | VNumber (Num q) => negb (Qeq_bool q 0)
  | VString s => negb (String.eqb s "")
  | VArray _ | VObject _ => true
  end.

(** Own-property lookup [o.k]; [None] is [undefined]. *)
Fixpoint assoc (k : string) (fields : list (string * value)) : option value :=
  match fields with
  | [] => None
  | (k', v) :: rest => if String.eqb k k' then Some v else assoc k rest
  end.

(** [a ?? b] on a possibly undefined left operand. *)
Definition nullish (a : option value) (b : option value) : option value :=
  match a with
  | None | Some VNull => b
  | Some v => Some v
  end.

Definition upper_ascii (c : ascii) : ascii :=
  let n := N_of_ascii c in
  if ((97 <=? n) && (n <=? 122))%N then ascii_of_N (n - 32) else c.

Fixpoint toUpperCase (s : string) : string :=
  match s with
  | EmptyString => EmptyString
  | String c s' => String (upper_ascii c) (toUpperCase s')
  end.

Definition is_ws (c : ascii) : bool :=
  let n := N_of_ascii c in
  ((9 <=? n) && (n <=? 13) || (n =? 32))%N.

Fixpoint trim_start (s : string) : string :=
  match s with
  | EmptyString => EmptyString
  | String c s' => if is_ws c then trim_start s' else s
  end.

Fixpoint trim_end (s : string) : string :=
  match s with
  | EmptyString => EmptyString
  | String c s' =>
      match trim_end s' with
      | EmptyString => if is_ws c then EmptyString else String c EmptyString
      | t => String c t
      end
  end.

Definition trim (s : string) : string := trim_end (trim_start s).

(** [s.split(sep)] for a one-character separator: never empty. *)
Fixpoint split (sep : ascii) (s : string) : list string :=
  match s with
  | EmptyString => [EmptyString]
  | String c s' =>
      if Ascii.eqb c sep then EmptyString :: split sep s'
      else match split sep s' with
           | p :: ps => String c p :: ps
           | [] => [String c EmptyString]
           end
  end.

Definition digit_of (c : ascii) : option Z :=
  let n := N_of_ascii c in
  if ((48 <=? n) && (n <=? 57))%N then Some (Z.of_N (n - 48)) else None.

Fixpoint digits_prefix (s : string) (acc : option Z) : option Z :=
  match s with
  | EmptyString => acc
  | String c s' =>
      match digit_of c with
      | Some d => digits_prefix s' (Some (10 * default 0 acc + d))
      | None => acc
      end
  end.

(** [parseInt(s, 10)] on a string; [None] is [NaN]. *)
Definition parseInt (s : string) : option Z :=
  let s1 := trim_start s in
  let '(neg, s2) :=
    match s1 with
    | String "-" r => (true, r)
    | String "+" r => (false, r)
    | _ => (false, s1)
    end in
  match digits_prefix s2 None with
  | Some n => Some (if neg then - n else n)
  | None => None
  end.

(** [parseInt(v, 10)] on any value: the argument is first converted to a
    string.  A number prints in decimal notation, of which [parseInt] keeps
    the integer part; an array prints its elements separated by commas, so
    only the first one counts ([null] printing as nothing); [true], [false],
    [null] and objects print as words. *)
Fixpoint parseIntOf (v : value) : option Z :=
  match v with
  | VString s => parseInt s
  | VNumber (Num q) => Some (Z.quot (Qnum q) (Zpos (Qden q)))
  | VArray (x :: _) =>
      match x with
      | VNull => None
      | _ => parseIntOf x
      end
  | _ => None
  end.

(** The number an integer-or-[NaN] result stands for. *)
Definition of_int (n : option Z) : value :=
  match n with
  | Some z => VInt z
  | None => VNumber NaN
  end.

(** [Math.round]: the nearest integer, halves going up. *)
Definition round (q : Q) : Z := Qfloor (q + (1 # 2)).

(** [Number(x.toFixed(2))] for the binary64 number whose exact value is
    [q]: the hundredth nearest to that value, halves going away from zero,
    as the decimal that [toFixed] prints. *)
Definition toFixed2 (q : Q) : Q :=
  if Qle_bool 0 q then round (q * 100) # 100
  else - (round (- q * 100) # 100).

(** The binary64 number an integer is read as: the nearest one. *)
Definition doubleOf (z : Z) : PrimFloat.float :=
  FloatOps.SF2Prim
    (SpecFloat.binary_normalize FloatOps.prec FloatOps.emax z 0 false).

(** The rational number a finite binary64 number is.  An infinity or a
    [NaN], which the quotient of two integers below [1e306] never is, is not
    represented and reads as 0. *)
Definition exactOf (f : PrimFloat.float) : Q :=
  match FloatOps.Prim2SF f with
  | SpecFloat.S754_finite s m e =>
      let v := (inject_Z (Zpos m) * Qpower (2 # 1) e)%Q in
      if s then (- v)%Q else v
  | _ => 0%Q
  end.

(** [(profit / perOutput) * 100] as the code computes it: the quotient and
    the product are each rounded to binary64. *)
Definition percentOf (profit perOutput : Z) : Q :=
  exactOf (PrimFloat.mul (PrimFloat.div (doubleOf profit) (doubleOf perOutput))
             (doubleOf 100)).

(** [/^[A-C][1-3]$/.test(k)] *)
Definition is_slot_key (k : string) : bool :=
  match k with
  | String r (String c EmptyString) =>
      let r := N_of_ascii r in
      let c := N_of_ascii c in
      ((65 <=? r) && (r <=? 67) && (49 <=? c) && (c <=? 51))%N
  | _ => false
  end.

End JS.

Import JS.

(** ** The recipe parser *)

Record ingredient : Type := Ingredient {
  item : value;
  count : value
}.

(** [v.k] for a value that is not [null] and a property name that no
    prototype defines: only an object has it. *)
Definition own (v : value) (k : string) : option value :=
  match v with
  | VObject fields => assoc k fields
  | _ => None
  end.

(** [Object.values(v)[0]] for an object or an array. *)
Definition first_value (v : value) : option value :=
  match v with
  | VObject ((_, x) :: _) => Some x
  | VArray (x :: _) => Some x
  | _ => None
  end.

(** [parts[1] ? parseInt(parts[1], 10) : 1] *)
Definition count_part (parts : list string) : option Z :=
  match parts with
  | _ :: p1 :: _ => if String.eqb p1 "" then Some 1 else parseInt p1
  | _ => Some 1
  end.

(** The fallback for a structured slot without an [item]: its first value,
    when a string, is read as ["ITEM_ID:count"]. *)
Definition parseFirst (v : value) : option ingredient :=
  match first_value v with
  | Some (VString first) =>
      let parts := split ":" first in
      Some (Ingredient (VString (hd "" parts)) (of_int (count_part parts)))
  | _ => None
  end.

(** One turn of the loop over [Object.entries(recipe)]: the ingredient
    pushed for the entry, if any. *)
Definition parseSlot (k : string) (v : value) : option ingredient :=
  if negb (is_slot_key k) then None
  else if negb (truthy v) then None
  else match v with
  | VString s =>
      let parts := split ":" s in
      let id := trim (hd "" parts) in
      let cnt := count_part parts in
      if String.eqb id "" then None
      else Some (Ingredient (VString id) (VInt (default 1 cnt)))
  | VObject _ | VArray _ =>
      match own v "item" with
      | Some it =>
          if truthy it
          then Some (Ingredient it (default (VInt 1) (nullish (own v "count") None)))
          else parseFirst v
      | None => parseFirst v
      end
  | _ => None
  end.

(** [Object.entries(recipe)]: the own properties of an object.  A string or
    an array has only index keys and a number or a boolean has none, so no
    entry of theirs can name a slot. *)
Definition entries (recipe : value) : list (string * value) :=
  match recipe with
  | VObject fields => fields
  | _ => []
  end.

Definition outputCountOf (recipe : value) : Z :=
  match nullish (own recipe "count") None with
  | Some c =>
      match parseIntOf c with
      | Some parsed => if (0 <? parsed)%Z then parsed else 1
      | None => 1
      end
  | None => 1
  end.

Record parsed_recipe : Type := Parsed {
  ingredients : list ingredient;
  outputCount : Z
}.

Definition parseRecipeSlots (recipe : value) : parsed_recipe :=
  Parsed (omap (fun kv => parseSlot kv.1 kv.2) (entries recipe))
         (outputCountOf recipe).

(** ** The store, the caches and the providers *)

Definition PRICE_CACHE_TTL : Z := 1000 * 60 * 1.

(** A row of table [prices].  The price column may hold [NULL], which is
    read back as [null]. *)
Record price_row : Type := PriceRow {
  price : option Z;
  source : string;
  layers : Z;
  updatedAt : Z
}.

Record recipe_row : Type := RecipeRow {
  json : value;
  recipe_updatedAt : Z
}.

Record margin_row : Type := MarginRow {
  costPerUnit : Z;
  sellPrice : Z;
  profit : Z;
  marginPercent : Q;
  margin_updatedAt : Z
}.

(** An entry of [bazaarPrices]. *)
Record quote : Type := Quote {
  buy : option Q;
  sell : option Q;
  quote_updatedAt : Z
}.

(** An entry of [lbinCache]. *)
Record lbin_entry : Type := Lbin {
  lbin_price : Q;
  lbin_updatedAt : Z
}.

Inductive provider_call : Type :=
| AuctionCall (name : string)
| RecipeCall (name : string).

Record world : Type := World {
  prices : gmap string price_row;
  recipes : gmap string recipe_row;
  craft_margins : gmap string margin_row;
  bazaarPrices : gmap string quote;
  lbinCache : gmap string lbin_entry;
  clock : Z;
  calls : list provider_call
}.

Definition upsert_price (name : string) (row : price_row) (w : world) : world :=
  World (<[name := row]> (prices w)) (recipes w) (craft_margins w)
        (bazaarPrices w) (lbinCache w) (clock w) (calls w).

Definition upsert_recipe (name : string) (row : recipe_row) (w : world) : world :=
  World (prices w) (<[name := row]> (recipes w)) (craft_margins w)
        (bazaarPrices w) (lbinCache w) (clock w) (calls w).

Definition upsert_margin (name : string) (row : margin_row) (w : world) : world :=
  World (prices w) (recipes w) (<[name := row]> (craft_margins w))
        (bazaarPrices w) (lbinCache w) (clock w) (calls w).

Definition set_lbin (name : string) (e : lbin_entry) (w : world) : world :=
  World (prices w) (recipes w) (craft_margins w)
        (bazaarPrices w) (<[name := e]> (lbinCache w)) (clock w) (calls w).

(** What a provider answers: [body] is the parsed JSON, [None] standing for
    every way the source gives up on a response (network error, status not
    ok, empty text, text that does not parse). *)
Record reply : Type := Reply {
  elapsed : Z;
  body : option value
}.

Definition nowTs (w : world) : Z := clock w.

Definition fetch (api : string -> Z -> reply) (call : provider_call)
    (name : string) (w : world) : option value * world :=
  let r := api name (clock w) in
  (body r,
   World (prices w) (recipes w) (craft_margins w) (bazaarPrices w)
         (lbinCache w) (clock w + elapsed r) (calls w ++ [call])%list).

(** How a call ends: with a value, or by an exception.  [Unsupported] marks
    a run that leaves the modelled fragment (the numeric coercion of a
    string, an array or an object used as an ingredient count). *)
Inductive failure : Type :=
| TypeError
| Unsupported
| OutOfFuel.

Inductive outcome (A : Type) : Type :=
| Done (a : A)
| Raise (e : failure).
Arguments Done {A} a.
Arguments Raise {A} e.

Definition obind {A B : Type} (m : outcome A) (k : A -> outcome B) : outcome B :=
  match m with
  | Done a => k a
  | Raise e => Raise e
  end.

Notation "'let*' p ':=' m 'in' k" :=
  (obind m (fun p => k))
  (at level 10, p pattern, m at level 100, k at level 200).

(** What [getItemPrice] resolves to. *)
Record priced : Type := Priced {
  p_price : option Z;
  p_source : string;
  p_layers : Z
}.

(** [ing.item.toUpperCase()] *)
Definition upperOf (v : value) : outcome string :=
  match v with
  | VString s => Done (toUpperCase s)
  | _ => Raise TypeError
  end.

(** [ing.count || 1] *)
Definition orOne (c : value) : value :=
  if truthy c then c else VInt 1.

(** The number a count is read as in [sub.price * ingCount].  The count
    went through [ing.count || 1], so it is not null, false, 0, [NaN] or the
    empty string; a number or [true] is read here.  A string, an array or an
    object, which a structured slot may give as its count, the code coerces:
    ["2"] reads as 2, and ["abc"] as [NaN], after which the total is [NaN]
    and the row written has a null price.  Such a run ends here with
    [Unsupported]: it is outside the model, and every theorem about a
    completed call is about a call whose counts are numbers. *)
Definition toNumber (c : value) : outcome Q :=
  match c with
  | VNumber (Num q) => Done q
  | VBool b => Done (if b then 1 else 0)%Q
  | VNull => Done 0%Q
  | _ => Raise Unsupported
  end.

(** The first of [a.startingBid ?? a.price ?? a.bin ?? a.bid ?? null]. *)
Definition listingPrice (a : value) : value :=
  default VNull
    (nullish (own a "startingBid")
       (nullish (own a "price")
          (nullish (own a "bin")
             (nullish (own a "bid") (Some VNull))))).

(** [if (typeof p === "number" && p < min) min = p], where [min = None] is
    [Infinity]. *)
Definition lowerOf (min : option Q) (a : value) : option Q :=
  match listingPrice a with
  | VNumber (Num p) =>
      match min with
      | None => Some p
      | Some m => if Qlt_le_dec p m then Some p else min
      end
  | _ => min
  end.

(** The loop of [fetchLBIN].  The outer [None] is the exception thrown on
    reading a property of a [null] listing. *)
Fixpoint lowestBin (arr : list value) (min : option Q) : option (option Q) :=
  match arr with
  | [] => Some min
  | VNull :: _ => None
  | a :: rest => lowestBin rest (lowerOf min a)
  end.

(** What the engine is run against: the auction and recipe providers, each
    answering for an item asked at a time, and the table [easyItems], which
    the source file reads without declaring it. *)
Record env : Type := Env {
  auctions : string -> Z -> reply;
  recipeApi : string -> Z -> reply;
  easyItems : gmap string Q
}.

Section Engine.

Context (E : env).

Definition fetchLBIN (itemName : string) (w : world) : option Q * world :=
  let '(b, w1) := fetch (auctions E) (AuctionCall itemName) itemName w in
  match b with
  | Some (VArray (a :: arr)) =>
      match lowestBin (a :: arr) None with
      | Some (Some min) =>
          let now := nowTs w1 in
          (Some min,
           upsert_price itemName (PriceRow (Some (round min)) "lbin" 0 now)
             (set_lbin itemName (Lbin min now) w1))
      | _ => (None, w1)
      end
  | _ => (None, w1)
  end.

Definition fetchAndStoreRecipe (itemName : string) (w : world) : value * world :=
  let '(b, w1) := fetch (recipeApi E) (RecipeCall itemName) itemName w in
  match b with
  | Some j => (j, upsert_recipe itemName (RecipeRow j (nowTs w1)) w1)
  | None => (VNull, w1)
  end.

Definition getRecipeCached (itemName : string) (w : world) : value * world :=
  match recipes w !! itemName with
  | Some row => (json row, w)
  | None => fetchAndStoreRecipe itemName w
  end.

(** The result of one resolution: the price, the visited set as the call
    leaves it, and the world. *)
Definition resolution : Type := outcome (option priced * gset string * world).

(** The loop over the ingredients in [getItemPrice]; [resolve] is the
    recursive call.  [None] is [total = null]. *)
Fixpoint craftLoop (resolve : string -> gset string -> world -> resolution)
    (ings : list ingredient) (total : Q) (maxLayer : Z)
    (visited : gset string) (w : world)
    : outcome (option (Q * Z) * gset string * world) :=
  match ings with
  | [] => Done (Some (total, maxLayer), visited, w)
  | ing :: rest =>
      let* ingName := upperOf (item ing) in
      let ingCount := orOne (count ing) in
      let* (sub, visited1, w1) := resolve ingName visited w in
      match sub with
      | Some (Priced (Some subPrice) _ subLayers) =>
          let* c := toNumber ingCount in
          let total := (total + inject_Z subPrice * c)%Q in
          let maxLayer :=
            if (maxLayer <? subLayers + 1)%Z then subLayers + 1 else maxLayer in
          craftLoop resolve rest total maxLayer visited1 w1
      | _ => Done (None, visited1, w1)
      end
  end.

Definition freshRow (now : Z) (pr : option price_row) : option price_row :=
  match pr with
  | Some row => if (now - updatedAt row <? PRICE_CACHE_TTL)%Z then Some row else None
  | None => None
  end.

Definition freshLbin (now : Z) (c : option lbin_entry) : option lbin_entry :=
  match c with
  | Some e => if (now - lbin_updatedAt e <? PRICE_CACHE_TTL)%Z then Some e else None
  | None => None
  end.

Definition buyOf (q : option quote) : option Q :=
  match q with
  | Some e => buy e
  | None => None
  end.

Fixpoint getItemPrice (fuel : nat) (itemName : string) (visited : gset string)
    (w : world) : resolution :=
  match fuel with
  | O => Raise OutOfFuel
  | S fuel' =>
  if String.eqb itemName "" then Done (None, visited, w) else
  let name := toUpperCase itemName in
  if decide (name ∈ visited) then Done (None, visited, w) else
  let visited := {[name]} ∪ visited in
  let now := nowTs w in
  match freshRow now (prices w !! name) with
  | Some pr => Done (Some (Priced (price pr) (source pr) (layers pr)), visited, w)
  | None =>
  match buyOf (bazaarPrices w !! name) with
  | Some b =>
      let p := round b in
      Done (Some (Priced (Some p) "bazaar" 0), visited,
            upsert_price name (PriceRow (Some p) "bazaar" 0 now) w)
  | None =>
  match freshLbin now (lbinCache w !! name) with
  | Some cachedLbin =>
      let p := round (lbin_price cachedLbin) in
      Done (Some (Priced (Some p) "lbin" 0), visited,
            upsert_price name (PriceRow (Some p) "lbin" 0 now) w)
  | None =>
  let '(lbin, w) := fetchLBIN name w in
  match lbin with
  | Some l => Done (Some (Priced (Some (round l)) "lbin" 0), visited, w)
  | None =>
  let '(recipe, w) := getRecipeCached name w in
  let* (crafted, visited, w) :=
    if truthy recipe then
      let parsed := parseRecipeSlots recipe in
      match ingredients parsed with
      | [] => Done (None, visited, w)
      | ings =>
          let* (total, visited, w) :=
            craftLoop (getItemPrice fuel') ings 0 0 visited w in
          match total with
          | Some (total, maxLayer) =>
              let perUnit := round (total / inject_Z (outputCount parsed)) in
              Done (Some (Priced (Some perUnit) "craft" maxLayer), visited,
                    upsert_price name (PriceRow (Some perUnit) "craft" maxLayer now) w)
          | None => Done (None, visited, w)
          end
      end
    else Done (None, visited, w) in
  match crafted with
  | Some r => Done (Some r, visited, w)
  | None =>
  match easyItems E !! name with
  | Some e =>
      let p := round e in
      Done (Some (Priced (Some p) "easy" 0), visited,
            upsert_price name (PriceRow (Some p) "easy" 0 now) w)
  | None => Done (None, visited, w)
  end end end end end end
  end.

(** A resolution with its argument fixed: from a visited set and a world
    to a result. *)
Definition step : Type := gset string -> world -> resolution.

(** *** One level of resolution, as a relation

    [Resolved resolve itemName visited w r visited' w'] lists the ways one
    call of [getItemPrice], whose recursive calls are [resolve], ends with
    result [r]; it is used to reason by cases on a completed call. *)

Definition noCachedSource (name : string) (now : Z) (w : world) : Prop :=
  freshRow now (prices w !! name) = None
  /\ buyOf (bazaarPrices w !! name) = None
  /\ freshLbin now (lbinCache w !! name) = None.

(** The craft branch yields nothing: no usable recipe, or an ingredient
    that could not be priced. *)
Definition CraftFailed (resolve : string -> step) (recipe : value)
    (visited : gset string) (w : world) (visited' : gset string)
    (w' : world) : Prop :=
  ((truthy recipe = false \/ ingredients (parseRecipeSlots recipe) = [])
   /\ visited' = visited /\ w' = w)
  \/ (truthy recipe = true
      /\ ingredients (parseRecipeSlots recipe) <> []
      /\ craftLoop resolve (ingredients (parseRecipeSlots recipe)) 0 0 visited w
         = Done (None, visited', w')).

Inductive Sourced (resolve : string -> step) (name : string) (now : Z)
    (visited : gset string) (w : world)
    : option priced -> gset string -> world -> Prop :=
| Sourced_cache row :
    freshRow now (prices w !! name) = Some row ->
    Sourced resolve name now visited w
      (Some (Priced (price row) (source row) (layers row))) visited w
| Sourced_bazaar b :
    freshRow now (prices w !! name) = None ->
    buyOf (bazaarPrices w !! name) = Some b ->
    Sourced resolve name now visited w
      (Some (Priced (Some (round b)) "bazaar" 0)) visited
      (upsert_price name (PriceRow (Some (round b)) "bazaar" 0 now) w)
| Sourced_lbinCached e :
    freshRow now (prices w !! name) = None ->
    buyOf (bazaarPrices w !! name) = None ->
    freshLbin now (lbinCache w !! name) = Some e ->
    Sourced resolve name now visited w
      (Some (Priced (Some (round (lbin_price e))) "lbin" 0)) visited
      (upsert_price name
         (PriceRow (Some (round (lbin_price e))) "lbin" 0 now) w)
| Sourced_lbinLive l w1 :
    noCachedSource name now w ->
    fetchLBIN name w = (Some l, w1) ->
    Sourced resolve name now visited w
      (Some (Priced (Some (round l)) "lbin" 0)) visited w1
| Sourced_craft w1 recipe w2 total maxLayer visited3 w3 :
    noCachedSource name now w ->
    fetchLBIN name w = (None, w1) ->
    getRecipeCached name w1 = (recipe, w2) ->
    truthy recipe = true ->
    ingredients (parseRecipeSlots recipe) <> [] ->
    craftLoop resolve (ingredients (parseRecipeSlots recipe)) 0 0 visited w2
    = Done (Some (total, maxLayer), visited3, w3) ->
    let perUnit :=
      round (total / inject_Z (outputCount (parseRecipeSlots recipe))) in
    Sourced resolve name now visited w
      (Some (Priced (Some perUnit) "craft" maxLayer)) visited3
      (upsert_price name (PriceRow (Some perUnit) "craft" maxLayer now) w3)
| Sourced_easy w1 recipe w2 visited3 w3 e :
    noCachedSource name now w ->
    fetchLBIN name w = (None, w1) ->
    getRecipeCached name w1 = (recipe, w2) ->
    CraftFailed resolve recipe visited w2 visited3 w3 ->
    easyItems E !! name = Some e ->
    Sourced resolve name now visited w
      (Some (Priced (Some (round e)) "easy" 0)) visited3
      (upsert_price name (PriceRow (Some (round e)) "easy" 0 now) w3)
| Sourced_none w1 recipe w2 visited3 w3 :
    noCachedSource name now w ->
    fetchLBIN name w = (None, w1) ->
    getRecipeCached name w1 = (recipe, w2) ->
    CraftFailed resolve recipe visited w2 visited3 w3 ->
    easyItems E !! name = None ->
    Sourced resolve name now visited w None visited3 w3.

Inductive Resolved (resolve : string -> step) (itemName : string)
    (visited : gset string) (w : world)
    : option priced -> gset string -> world -> Prop :=
| Resolved_empty :
    itemName = "" ->
    Resolved resolve itemName visited w None visited w
| Resolved_revisit :
    itemName <> "" ->
    toUpperCase itemName ∈ visited ->
    Resolved resolve itemName visited w None visited w
| Resolved_sourced r visited' w' :
    itemName <> "" ->
    toUpperCase itemName ∉ visited ->
    Sourced resolve (toUpperCase itemName) (nowTs w)
      ({[toUpperCase itemName]} ∪ visited) w r visited' w' ->
    Resolved resolve itemName visited w r visited' w'.

(** *** The ingredient loops, as relations

    [AllPriced resolve ings visited w entries visited' w']: every ingredient
    of [ings] was priced in turn by [resolve], each from the state the one
    before left; [entries] records item, count, unit price, source and
    layers of each. *)

Record breakdown_entry : Type := Breakdown {
  b_item : string;
  b_count : value;
  b_unitPrice : Z;
  b_source : string;
  b_layers : Z
}.

Inductive AllPriced (resolve : string -> step)
    : list ingredient -> gset string -> world ->
      list breakdown_entry -> gset string -> world -> Prop :=
| AllPriced_nil visited w :
    AllPriced resolve [] visited w [] visited w
| AllPriced_cons ing rest visited w name sub visited1 w1 unit c
    entries visited2 w2 :
    upperOf (item ing) = Done name ->
    resolve name visited w = Done (Some sub, visited1, w1) ->
    p_price sub = Some unit ->
    toNumber (orOne (count ing)) = Done c ->
    AllPriced resolve rest visited1 w1 entries visited2 w2 ->
    AllPriced resolve (ing :: rest) visited w
      (Breakdown name (orOne (count ing)) unit (p_source sub) (p_layers sub)
       :: entries)
      visited2 w2.

(** The ingredient's resolution came back absent, or with a null price. *)
Definition Unpriceable (resolve : string -> step) (ing : ingredient)
    (visited : gset string) (w : world) (visited' : gset string)
    (w' : world) : Prop :=
  exists name sub,
    upperOf (item ing) = Done name
    /\ resolve name visited w = Done (sub, visited', w')
    /\ (sub = None \/ exists p, sub = Some p /\ p_price p = None).

(** [unitPrice * count] of one ingredient, and the sum over a list, added
    up in the order of the loop. *)
Definition lineCost (b : breakdown_entry) : Q :=
  match toNumber (b_count b) with
  | Done c => inject_Z (b_unitPrice b) * c
  | Raise _ => 0
  end.

Definition addLine (acc : Q) (b : breakdown_entry) : Q := (acc + lineCost b)%Q.

Definition sumCost (entries : list breakdown_entry) : Q :=
  fold_left addLine entries 0%Q.

(** How the two loops fold the layers of the ingredients. *)
Definition craftLayerStep (m : Z) (b : breakdown_entry) : Z :=
  if (m <? b_layers b + 1)%Z then b_layers b + 1 else m.

Definition marginLayerStep (m : Z) (b : breakdown_entry) : Z :=
  if (m <? b_layers b)%Z then b_layers b else m.


(** The resolver of the margin engine: a new, empty visited set for each
    ingredient, whatever set the caller holds. *)
Definition freshResolve (fuel : nat) : string -> step :=
  fun name _ w => getItemPrice fuel name ∅ w.

(** *** The margin engine *)

(** What [computeMarginForItem] returns on success. *)
Record margin : Type := Margin {
  m_item : string;
  m_costPerUnit : Z;
  m_sellPrice : Z;
  m_profit : Z;
  m_marginPercent : Q;
  m_breakdown : list breakdown_entry;
  m_craftLayers : Z
}.

(** The loop over the ingredients in [computeMarginForItem]; [None] is its
    [return null]. *)
Fixpoint marginLoop (fuel : nat) (ings : list ingredient) (total : Q)
    (breakdown : list breakdown_entry) (maxLayers : Z) (w : world)
    : outcome (option (Q * list breakdown_entry * Z) * world) :=
  match ings with
  | [] => Done (Some (total, breakdown, maxLayers), w)
  | ing :: rest =>
      let* ingName := upperOf (item ing) in
      let ingCount := orOne (count ing) in
      let* (sub, _, w1) := getItemPrice fuel ingName ∅ w in
      match sub with
      | Some (Priced (Some subPrice) subSource subLayers) =>
          let* c := toNumber ingCount in
          let total := (total + inject_Z subPrice * c)%Q in
          let breakdown :=
            (breakdown ++
             [Breakdown ingName ingCount (round (inject_Z subPrice)) subSource subLayers])%list in
          let maxLayers :=
            if (maxLayers <? subLayers)%Z then subLayers else maxLayers in
          marginLoop fuel rest total breakdown maxLayers w1
      | _ => Done (None, w1)
      end
  end.

Definition computeMarginForItem (fuel : nat) (itemName : string) (w : world)
    : outcome (option margin * world) :=
  match bazaarPrices w !! itemName with
  | None => Done (None, w)
  | Some bz =>
  match sell bz with
  | None => Done (None, w)
  | Some bzSell =>
  let '(recipe, w) := getRecipeCached itemName w in
  if negb (truthy recipe) then Done (None, w) else
  let parsed := parseRecipeSlots recipe in
  match ingredients parsed with
  | [] => Done (None, w)
  | ings =>
  let* (looped, w) := marginLoop fuel ings 0 [] 0 w in
  match looped with
  | None => Done (None, w)
  | Some (total, breakdown, maxLayers) =>
      let perOutput := round (total / inject_Z (outputCount parsed)) in
      let sell := round bzSell in
      let profit := round (inject_Z (sell - perOutput)) in
      let marginPercent :=
        if (0 <? perOutput)%Z
        then toFixed2 (percentOf profit perOutput)
        else 0%Q in
      let now := nowTs w in
      Done (Some (Margin itemName perOutput sell profit marginPercent
                         breakdown maxLayers),
            upsert_margin itemName
              (MarginRow perOutput sell profit marginPercent now) w)
  end end end end.

End Engine.

(** ** The per-item route *)

(** The columns the route selects from [craft_margins]. *)
Record margin_view : Type := MarginView {
  v_costPerUnit : Z;
  v_sellPrice : Z;
  v_profit : Z;
  v_marginPercent : Q
}.

Definition viewOf (r : margin_row) : margin_view :=
  MarginView (costPerUnit r) (sellPrice r) (profit r) (marginPercent r).

(** The object the handler builds.  A field read from the store is [None]
    when no row matches: [db.get] then resolves to [undefined], and the
    handler passes it on as it is; only [recipe] is given an explicit
    [null]. *)
Record item_detail : Type := ItemDetail {
  d_item : string;
  d_recipe : value;
  d_priceRow : option price_row;
  d_margin : option margin_view
}.

Definition priceRowJson (r : price_row) : value :=
  VObject [("price", match price r with Some p => VInt p | None => VNull end);
           ("source", VString (source r));
           ("layers", VInt (layers r));
           ("updatedAt", VInt (updatedAt r))].

Definition marginJson (r : margin_view) : value :=
  VObject [("costPerUnit", VInt (v_costPerUnit r));
           ("sellPrice", VInt (v_sellPrice r));
           ("profit", VInt (v_profit r));
           ("marginPercent", VNumber (Num (v_marginPercent r)))].

(** A property as [JSON.stringify] writes it: one whose value is
    [undefined] is left out. *)
Definition property (k : string) (v : option value) : list (string * value) :=
  match v with
  | Some x => [(k, x)]
  | None => []
  end.

(** The body [res.json] sends. *)
Definition stringify (d : item_detail) : value :=
  VObject ([("item", VString (d_item d)); ("recipe", d_recipe d)]
           ++ property "priceRow" (priceRowJson <$> d_priceRow d)
           ++ property "margin" (marginJson <$> d_margin d))%list.

(** [res.status(status).json(body)] *)
Inductive response : Type :=
| Json (status : Z) (body : value).

(** [GET /item-price/:item].  The handler answers 500 when a store read or
    the parse of a stored recipe throws; neither happens with a store that
    holds parsed recipes and never fails, so that branch is not reached. *)
Definition itemPriceRoute (param : string) (w : world) : response :=
  let item := toUpperCase param in
  let rec := recipes w !! item in
  let priceRow := prices w !! item in
  let margin := craft_margins w !! item in
  Json 200
    (stringify
       (ItemDetail item
          (match rec with Some r => json r | None => VNull end)
          priceRow
          (viewOf <$> margin))).

(** ** Invariants of resolution *)

(** No persisted price has a negative layer count. *)
Definition wf_prices (w : world) : Prop :=
  forall n row, prices w !! n = Some row -> 0 <= layers row.

(** What a completed resolution leaves alone and what it keeps true: the
    margin table and the bazaar snapshot are untouched, and layer counts
    stay non-negative. *)
Definition Framed (w : world) (r : option priced) (w' : world) : Prop :=
  craft_margins w' = craft_margins w
  /\ bazaarPrices w' = bazaarPrices w
  /\ (wf_prices w ->
      wf_prices w' /\ forall p, r = Some p -> 0 <= p_layers p).

Definition Sound (resolve : string -> step) : Prop :=
  forall name visited w r visited' w',
    resolve name visited w = Done (r, visited', w') -> Framed w r w'.

(** ** Sample environments and worlds *)

Module Sample.

Definition silent : string -> Z -> reply := fun _ _ => Reply 5 None.

(** A pickaxe crafted from two cobblestone and one stick, the recipe of the
    specification's example. *)
Definition pickRecipe : value :=
  VObject [("A1", VString "COBBLESTONE:2"); ("B1", VString "STICK:1");
           ("count", VString "1")].

Definition recipeBook : string -> Z -> reply := fun name _ =>
  if String.eqb name "PICK" then Reply 7 (Some pickRecipe) else Reply 5 None.

Definition env0 : env := Env silent recipeBook ∅.

Definition emptyWorld : world := World ∅ ∅ ∅ ∅ ∅ 100000 [].

Definition bazaar0 : gmap string quote :=
  {[ "COBBLESTONE" := Quote (Some (10 # 1)) (Some (9 # 1)) 0;
     "STICK" := Quote (Some (49 # 10)) None 0;
     "PICK" := Quote None (Some (100 # 1)) 0 ]}.

Definition world0 : world := World ∅ ∅ ∅ bazaar0 ∅ 100000 [].

(** A world that holds a price row for DIAMOND written 30 seconds ago. *)
Definition diamondRow : price_row := PriceRow (Some 800) "lbin" 0 70000.

Definition worldCached : world :=
  World {[ "DIAMOND" := diamondRow ]} ∅ ∅ ∅ ∅ 100000 [].

End Sample.

(** The world once a provider has been called for [name]: time has passed
    and the call is on the trace. *)
Definition afterCall (api : string -> Z -> reply) (call : provider_call)
    (name : string) (w : world) : world :=
  (fetch api call name w).2.


(** ** Recipe graphs *)








(** ** The nine slots of the crafting grid *)

Definition slotKeys : list string :=
  ["A1"; "A2"; "A3"; "B1"; "B2"; "B3"; "C1"; "C2"; "C3"].

(** ** Further scenarios *)

Module Scenario.

Import Sample.

(** An axe that needs cobblestone, which the bazaar sells, and an item that
    nothing prices. *)
Definition axeRecipe : value :=
  VObject [("A1", VString "COBBLESTONE:3"); ("B2", VString "MYSTERY")].

Definition axeBook : string -> Z -> reply := fun name _ =>
  if String.eqb name "AXE" then Reply 7 (Some axeRecipe) else Reply 5 None.

Definition envAxe : env := Env silent axeBook ∅.

Definition worldAxe : world :=
  World ∅ ∅ ∅
    {[ "COBBLESTONE" := Quote (Some (10 # 1)) (Some (9 # 1)) 0;
       "AXE" := Quote None (Some (50 # 1)) 0 ]}
    ∅ 100000 [].

(** Three active listings of DIAMOND: the lowest numeric price is 1200.4. *)
Definition diamondListings : value :=
  VArray [VObject [("startingBid", VInt 1500)];
          VObject [("price", VNumber (Num (6002 # 5)))];
          VObject [("bin", VString "cheap")]].

Definition auctionHouse : string -> Z -> reply := fun name _ =>
  if String.eqb name "DIAMOND" then Reply 5 (Some diamondListings)
  else Reply 5 None.

Definition envAuction : env := Env auctionHouse silent ∅.

(** A bazaar feed whose product id is in lower case. *)
Definition lowerBook : string -> Z -> reply := fun name _ =>
  if String.eqb name "pick" then Reply 7 (Some pickRecipe) else Reply 5 None.

Definition envLower : env := Env silent lowerBook ∅.

Definition worldLower : world :=
  World ∅ ∅ ∅
    {[ "COBBLESTONE" := Quote (Some (10 # 1)) (Some (9 # 1)) 0;
       "STICK" := Quote (Some (49 # 10)) None 0;
       "pick" := Quote None (Some (100 # 1)) 0 ]}
    ∅ 100000 [].






(** A plank made of two logs, one in each of two slots; the bazaar sells
    logs and buys planks. *)
Definition plankRecipe : value :=
  VObject [("A1", VString "LOG:1"); ("A2", VString "LOG:1")].

Definition plankBook : string -> Z -> reply := fun name _ =>
  if String.eqb name "PLANK" then Reply 7 (Some plankRecipe) else Reply 5 None.

Definition envPlank : env := Env silent plankBook ∅.

Definition worldPlank : world :=
  World ∅ ∅ ∅
    {[ "LOG" := Quote (Some (10 # 1)) (Some (9 # 1)) 0;
       "PLANK" := Quote None (Some (30 # 1)) 0 ]}
    ∅ 100000 [].

End Scenario.

(** ** What a resolution keeps true

    [Invariant E I Good]: the property [I] of the visited set and the world
    survives every write [getItemPrice] makes, and [Good] holds of every
    result it can build from a world that satisfies [I]. *)

Record Invariant (E : env) (I : gset string -> world -> Prop)
    (Good : priced -> Prop) : Prop := {
  inv_visit : forall n v w, I v w -> I ({[n]} ∪ v) w;
  inv_call : forall api call n v w, I v w -> I v (afterCall api call n w);
  inv_lbin : forall n e v w, I v w -> I v (set_lbin n e w);
  inv_recipe : forall n j t t0 v w,
    I v w -> recipes w !! n = None -> body (recipeApi E n t0) = Some j ->
    I v (upsert_recipe n (RecipeRow j t) w);
  inv_price : forall n p src lay t v w,
    I v w -> Good (Priced (Some p) src lay) ->
    I v (upsert_price n (PriceRow (Some p) src lay t) w);
  good_row : forall n row v w,
    I v w -> prices w !! n = Some row ->
    Good (Priced (price row) (source row) (layers row));
  good_base : forall p src,
    src = "bazaar" \/ src = "lbin" \/ src = "easy" ->
    Good (Priced (Some p) src 0);
  good_craft : forall es p,
    es <> [] ->
    (forall b, b ∈ es ->
       Good (Priced (Some (b_unitPrice b)) (b_source b) (b_layers b))) ->
    Good (Priced (Some p) "craft" (fold_left craftLayerStep es 0))
}.

Definition Keeps (I : gset string -> world -> Prop) (Good : priced -> Prop)
    (resolve : string -> step) : Prop :=
  forall name v w r v' w',
    I v w -> resolve name v w = Done (r, v', w') ->
    I v' w' /\ forall p, r = Some p -> Good p.

(** The world [w'] holds all that [w] held: no recipe row was changed or
    removed, no price row and no auction low was removed, the trace was only
    extended, and the margin table and the bazaar snapshot are the same. *)
Definition Grows (w w' : world) : Prop :=
  (forall n row, recipes w !! n = Some row -> recipes w' !! n = Some row)
  /\ (forall n, is_Some (prices w !! n) -> is_Some (prices w' !! n))
  /\ (forall n, is_Some (lbinCache w !! n) -> is_Some (lbinCache w' !! n))
  /\ calls w `prefix_of` calls w'
  /\ craft_margins w' = craft_margins w
  /\ bazaarPrices w' = bazaarPrices w.

Definition growsFrom (v0 : gset string) (w0 : world)
    : gset string -> world -> Prop :=
  fun v w => v0 ⊆ v /\ Grows w0 w.

(** The layer count fits the source, as the comments of the table
    [prices] have it: 0 for a base price, at least 1 for a crafted one. *)
Definition baseSource (s : string) : Prop :=
  s = "bazaar" \/ s = "lbin" \/ s = "easy".

Definition layered (p : priced) : Prop :=
  (p_source p = "craft" /\ 1 <= p_layers p)
  \/ (baseSource (p_source p) /\ p_layers p = 0).

Definition layeredStore (w : world) : Prop :=
  forall n row,
    prices w !! n = Some row ->
    layered (Priced (price row) (source row) (layers row)).

(** A recipe whose filled slots are all strings. *)
Definition plainRecipe (recipe : value) : Prop :=
  forall k v,
    (k, v) ∈ entries recipe -> is_slot_key k = true -> truthy v = true ->
    exists s, v = VString s.

(** The ingredients of a plain recipe: a string id and a count that reads
    as a number. *)
Definition plainIngredient (ing : ingredient) : Prop :=
  (exists id, item ing = VString id)
  /\ exists c, toNumber (orOne (count ing)) = Done c.

(** Every recipe the store holds or the provider may serve is plain. *)
Definition plainBook (E : env) (w : world) : Prop :=
  (forall n row, recipes w !! n = Some row -> plainRecipe (json row))
  /\ (forall n t j, body (recipeApi E n t) = Some j -> plainRecipe j).

(** The call ended without an exception being thrown. *)
Definition quiet {A : Type} (o : outcome A) : Prop :=
  match o with
  | Done _ => True
  | Raise e => e = OutOfFuel
  end.

(** Listings of DIAMOND with a [null] among them. *)
Definition nullListings : value :=
  VArray [VObject [("startingBid", VInt 1500)]; VNull;
          VObject [("price", VInt 900)]].

Definition envNullListing : env :=
  Env (fun name _ =>
         if String.eqb name "DIAMOND" then Reply 5 (Some nullListings)
         else Reply 5 None)
      Sample.silent ∅.

(** ** Ingredients bought on the bazaar *)

(** The ingredient is a string id with an integer count, the bazaar quotes a
    buy price for it, and the price store has no row for it. *)
Definition quotedIngredient (w : world) (ing : ingredient) : Prop :=
  exists id n q,
    ing = Ingredient (VString id) (VInt n)
    /\ id <> ""
    /\ buyOf (bazaarPrices w !! toUpperCase id) = Some q
    /\ prices w !! toUpperCase id = None.

(** The breakdown entry such an ingredient gets: the rounded buy quote as
    unit price, source bazaar, layers 0. *)
Definition quotedLine (w : world) (ing : ingredient) (b : breakdown_entry)
    : Prop :=
  exists id n q,
    ing = Ingredient (VString id) (VInt n)
    /\ buyOf (bazaarPrices w !! toUpperCase id) = Some q
    /\ b = Breakdown (toUpperCase id) (orOne (VInt n)) (round q) "bazaar" 0.

(** The price rows of the world [w1] are those of [w0], but for rows that
    hold the rounded bazaar buy quote, written at the time [now], which is
    the time of [w1]; bazaar snapshot and trace are the same. *)
Definition quotedSince (w0 : world) (w1 : world) : Prop :=
  bazaarPrices w1 = bazaarPrices w0
  /\ clock w1 = clock w0 /\ calls w1 = calls w0
  /\ recipes w1 = recipes w0 /\ craft_margins w1 = craft_margins w0
  /\ forall k,
       prices w1 !! k = prices w0 !! k
       \/ exists q,
            buyOf (bazaarPrices w0 !! k) = Some q
            /\ prices w1 !! k
               = Some (PriceRow (Some (round q)) "bazaar" 0 (clock w0)).

(** ** Number formatting *)

Definition digitChar (d : Z) : ascii := ascii_of_N (48 + Z.to_N d).

(** The digits of [n] put in front of [acc], the most significant first;
    [fuel] bounds their number. *)
Fixpoint digitsOf (fuel : nat) (n : Z) (acc : list ascii) : list ascii :=
  match fuel with
  | O => acc
  | S fuel' =>
      let acc := digitChar (n mod 10) :: acc in
      if (n <? 10)%Z then acc else digitsOf fuel' (n / 10) acc
  end.

(** The decimal numeral of a natural number: it has no more digits than
    the number has bits. *)
Definition decimal (n : Z) : list ascii :=
  digitsOf (S (Z.to_nat (Z.log2 n))) n [].

(** The number a list of digits denotes. *)
Fixpoint valueOf (ds : list ascii) : Z :=
  match ds with
  | [] => 0
  | c :: ds' => default 0 (digit_of c) * 10 ^ Z.of_nat (length ds') + valueOf ds'
  end.

(** A comma after every third digit that has a digit after it; the digits
    come least significant first. *)
Fixpoint groupThousands (ds : list ascii) : list ascii :=
  match ds with
  | a :: b :: c :: ((_ :: _) as rest) =>
      a :: b :: c :: ","%char :: groupThousands rest
  | _ => ds
  end.

(** [z.toLocaleString("en-US")] for an integer [z]. *)
Definition toLocaleString (z : Z) : string :=
  let digits := reverse (groupThousands (reverse (decimal (Z.abs z)))) in
  string_of_list_ascii (if (z <? 0)%Z then "-"%char :: digits else digits).

(** [formatInt(n)], that is [Math.round(n || 0)]: [n || 0] is 0 for [NaN]
    and [n] for any other number. *)
Definition formatInt (n : number) : Z :=
  match n with
  | NaN => round 0
  | Num q => round q
  end.

Definition formatWithCommas (n : number) : string :=
  toLocaleString (formatInt n).

(** [s.replace(/,/g, "")], by which a reader undoes the grouping. *)
Fixpoint withoutCommas (s : string) : string :=
  match s with
  | EmptyString => EmptyString
  | String c s' =>
      if Ascii.eqb c "," then withoutCommas s' else String c (withoutCommas s')
  end.

(** [x.toFixed(2)]: the sign, then the nearest number of hundredths of the
    absolute value, halves going up, written with two decimals. *)
Definition toFixed (q : Q) : string :=
  let neg := negb (Qle_bool 0 q) in
  let n := round ((if neg then - q else q) * 100) in
  let digits :=
    (decimal (n / 100)
     ++ "."%char :: [digitChar (n mod 100 / 10); digitChar (n mod 10)])%list in
  string_of_list_ascii (if neg then "-"%char :: digits else digits).

(** ** The list of the best margins *)

(** An element of what [getTop25Formatted] returns.  [None] in
    [t_priceSource] and [t_craftLayers] is the [null] the source puts
    there. *)
Record top_entry : Type := TopEntry {
  t_item : string;
  t_sellPrice : string;
  t_costPerUnit : string;
  t_profit : string;
  t_marginPercent : string;
  t_priceSource : option string;
  t_craftLayers : option Z;
  t_updatedAt : Z
}.

(** [ORDER BY profit DESC]: a row comes before the rows of no greater
    profit. *)
Definition byProfit : relation (string * margin_row) :=
  fun a b => profit b.2 <= profit a.2.

#[global] Instance byProfit_dec : RelDecision byProfit :=
  fun a b => decide (profit b.2 <= profit a.2).

(** [SELECT ... FROM craft_margins ORDER BY profit DESC LIMIT n].  SQLite
    leaves the order of rows of equal profit open; the order taken here is
    the one a stable sort of the table gives. *)
Definition topByProfit (n : nat) (m : gmap string margin_row)
    : list (string * margin_row) :=
  take n (merge_sort byProfit (map_to_list m)).

(** One turn of the loop of [getTop25Formatted]: the margin row [r] with the
    source and layers of the price row now stored under the same key. *)
Definition formatRow (w : world) (r : string * margin_row) : top_entry :=
  let priceRow := prices w !! r.1 in
  TopEntry r.1
    (formatWithCommas (Num (inject_Z (sellPrice r.2))))
    (formatWithCommas (Num (inject_Z (costPerUnit r.2))))
    (formatWithCommas (Num (inject_Z (profit r.2))))
    (toFixed (marginPercent r.2) ++ "%")
    (source <$> priceRow)
    (layers <$> priceRow)
    (margin_updatedAt r.2).

Definition getTop25Formatted (w : world) : list top_entry :=
  formatRow w <$> topByProfit 25 (craft_margins w).

Definition orNull {A : Type} (f : A -> value) (x : option A) : value :=
  match x with
  | Some a => f a
  | None => VNull
  end.

Definition topEntryJson (e : top_entry) : value :=
  VObject [("item", VString (t_item e));
           ("sellPrice", VString (t_sellPrice e));
           ("costPerUnit", VString (t_costPerUnit e));
           ("profit", VString (t_profit e));
           ("marginPercent", VString (t_marginPercent e));
           ("priceSource", orNull VString (t_priceSource e));
           ("craftLayers", orNull VInt (t_craftLayers e));
           ("updatedAt", VInt (t_updatedAt e))].

(** [GET /craft-margins].  As for the per-item route, the branch that
    answers 500 needs a store read that throws and is not reached. *)
Definition craftMarginsRoute (w : world) : response :=
  Json 200 (VArray (topEntryJson <$> getTop25Formatted w)).

(** ** The bazaar feed *)

(** [Object.entries(v)] in full: an array and a string have their indices,
    written in decimal, as keys. *)
Definition indexed {A : Type} (f : A -> value) (l : list A)
    : list (string * value) :=
  imap (fun i x => (string_of_list_ascii (decimal (Z.of_nat i)), f x)) l.

Definition objectEntries (v : value) : list (string * value) :=
  match v with
  | VObject fields => fields
  | VArray items => indexed (fun x => x) items
  | VString s =>
      indexed (fun c => VString (String c EmptyString)) (list_ascii_of_string s)
  | _ => []
  end.

(** [info.quick_status?.k ?? null], as the field of a quote.  Reading
    [quick_status] of a [null] product throws; a missing or null
    [quick_status], and a missing or null [k], give null.  A quote holds a
    number or null: a value of another type leaves the modelled
    fragment. *)
Definition quickStatus (info : value) (k : string) : outcome (option Q) :=
  match info with
  | VNull => Raise TypeError
  | _ =>
      match nullish (own info "quick_status") None with
      | None => Done None
      | Some qs =>
          match nullish (own qs k) None with
          | None => Done None
          | Some (VNumber (Num q)) => Done (Some q)
          | Some _ => Raise Unsupported
          end
      end
  end.

(** The loop of [fetchBazaarPrices] over the products. *)
Fixpoint quotesOf (now : Z) (products : list (string * value))
    (out : gmap string quote) : outcome (gmap string quote) :=
  match products with
  | [] => Done out
  | (id, info) :: rest =>
      let* b := quickStatus info "buyPrice" in
      let* s := quickStatus info "sellPrice" in
      quotesOf now rest (<[id := Quote b s now]> out)
  end.

Definition set_bazaar (out : gmap string quote) (w : world) : world :=
  World (prices w) (recipes w) (craft_margins w) out (lbinCache w)
        (clock w) (calls w).

(** The world once the feed has answered: time has passed. *)
Definition afterFeed (r : reply) (w : world) : world :=
  World (prices w) (recipes w) (craft_margins w) (bazaarPrices w)
        (lbinCache w) (clock w + elapsed r) (calls w).

(** [fetchBazaarPrices], run against a feed that answers for the time it is
    asked at.  The body of the answer is [None] when the request fails or
    the text does not parse; the status of the response is not looked at.
    Every exception is caught, and then the snapshot stays as it was. *)
Definition fetchBazaarPrices (feed : Z -> reply) (w : world) : outcome world :=
  let r := feed (clock w) in
  let w1 := afterFeed r w in
  match body r with
  | None => Done w1
  | Some data =>
      if negb (truthy data) then Done w1
      else match own data "products" with
      | None => Done w1
      | Some products =>
          if negb (truthy products) then Done w1
          else
            match quotesOf (nowTs w1) (objectEntries products) ∅ with
            | Done out => Done (set_bazaar out w1)
            | Raise TypeError => Done w1
            | Raise e => Raise e
            end
      end
  end.

(** ** Sample feeds *)

(** A feed of two products, the second without a [quick_status]. *)
Definition feedBody : value :=
  VObject
    [("products",
      VObject
        [("LOG",
          VObject [("quick_status",
                    VObject [("buyPrice", VNumber (Num (21 # 2)));
                             ("sellPrice", VInt 9)])]);
         ("GEM", VObject [])])].

Definition feed0 : Z -> reply := fun _ => Reply 40 (Some feedBody).

(** A feed with a [null] product. *)
Definition brokenBody : value :=
  VObject [("products", VObject [("LOG", VObject []); ("GEM", VNull)])].

Definition brokenFeed : Z -> reply := fun _ => Reply 40 (Some brokenBody).

(** A recipe with a structured slot whose item is a number. *)
Definition oddRecipe : value :=
  VObject [("A1", VString "COBBLESTONE:2");
           ("A2", VObject [("item", VInt 5); ("count", VInt 1)])].

Definition envOdd : env :=
  Env Sample.silent
      (fun name _ =>
         if String.eqb name "ODD" then Reply 7 (Some oddRecipe)
         else Reply 5 None)
      ∅.

(** ** The order of the sources, as conditions on the state

    What it is for each source of [getItemPrice] to have, or not to have, a
    price for [name], said of the tables, the caches and the provider's
    answer rather than of the code that reads them. *)




(** The provider's answer holds no auction low: if it is a list of listings
    at all, one of them is [null] or none has a number as its price. *)
Definition noLiveLow (E : env) (name : string) (w : world) : Prop :=
  forall arr,
    body (auctions E name (clock w)) = Some (VArray arr) ->
    VNull ∈ arr
    \/ forall a p, a ∈ arr -> listingPrice a <> VNumber (Num p).

(** [min] is the least of the listings' numeric prices. *)
Definition leastListing (arr : list value) (min : Q) : Prop :=
  (exists a, a ∈ arr /\ listingPrice a = VNumber (Num min))
  /\ forall a p, a ∈ arr -> listingPrice a = VNumber (Num p) -> (min <= p)%Q.


(** ** Scenarios for the order of the sources and the margin *)

Module Cases.






End Cases.

(** ** Basic facts about the primitives *)

Lemma upper_ascii_idem (c : ascii) : upper_ascii (upper_ascii c) = upper_ascii c.
Proof. destruct c as [[] [] [] [] [] [] [] []]; reflexivity. Qed.

Lemma toUpperCase_idem (s : string) : toUpperCase (toUpperCase s) = toUpperCase s.
Proof.
  induction s as [|c s IH]; simpl; [reflexivity|].
  by rewrite upper_ascii_idem, IH.
Qed.

Lemma toUpperCase_empty (s : string) : toUpperCase s = "" <-> s = "".
Proof. destruct s; simpl; split; congruence. Qed.

Lemma eqb_empty_upper (s : string) :
  String.eqb (toUpperCase s) "" = String.eqb s "".
Proof. by destruct s. Qed.

Lemma round_inject_Z (z : Z) : round (inject_Z z) = z.
Proof.
  unfold round, Qfloor, inject_Z, Qplus; simpl.
  rewrite Z.mul_1_r.
  replace (z * 2 + 1) with (1 + z * 2) by lia.
  rewrite Z.div_add by lia. reflexivity.
Qed.

Section Resolution.

Context (E : env).

(** A completed call is one of the cases of [Resolved], and conversely. *)
Lemma getItemPrice_Resolved_1 (fuel : nat) (itemName : string)
    (visited : gset string) (w : world) r visited' w' :
  getItemPrice E (S fuel) itemName visited w = Done (r, visited', w') ->
  Resolved E (getItemPrice E fuel) itemName visited w r visited' w'.
Proof.
  cbn [getItemPrice].
  destruct (String.eqb_spec itemName "") as [->|Hne].
  { intros [= <- <- <-]. by constructor. }
  destruct (decide (toUpperCase itemName ∈ visited)).
  { intros [= <- <- <-]. by constructor 2. }
  intros H. constructor 3; [done..|]. revert H.
  set (name := toUpperCase itemName). set (v1 := {[name]} ∪ visited).
  destruct (freshRow (nowTs w) (prices w !! name)) as [row|] eqn:H1.
  { intros [= <- <- <-]. by constructor. }
  destruct (buyOf (bazaarPrices w !! name)) as [b|] eqn:H2.
  { intros [= <- <- <-]. by constructor. }
  destruct (freshLbin (nowTs w) (lbinCache w !! name)) as [e|] eqn:H3.
  { intros [= <- <- <-]. by constructor. }
  assert (noCachedSource name (nowTs w) w) as Hno by done.
  destruct (fetchLBIN E name w) as [[l|] w1] eqn:H4.
  { intros [= <- <- <-]. by econstructor. }
  destruct (getRecipeCached E name w1) as [recipe w2] eqn:H5.
  destruct (truthy recipe) eqn:H6; cbn [obind].
  - destruct (ingredients (parseRecipeSlots recipe)) as [|ing ings] eqn:H7; cbn [obind].
    + assert (CraftFailed (getItemPrice E fuel) recipe v1 w2 v1 w2) as Hf.
      { left. rewrite H7. auto. }
      destruct (easyItems E !! name) eqn:H8; intros [= <- <- <-].
      * by eapply Sourced_easy.
      * by eapply Sourced_none.
    + destruct (craftLoop _ _ _ _ _ _) as [[[[[total maxLayer]|] v3] w3]|] eqn:H8;
        cbn [obind]; [| |done].
      * intros [= <- <- <-]. eapply Sourced_craft; eauto; by rewrite H7.
      * assert (CraftFailed (getItemPrice E fuel) recipe v1 w2 v3 w3) as Hf.
        { right. rewrite H7. auto. }
        destruct (easyItems E !! name) eqn:H9; intros [= <- <- <-].
        -- by eapply Sourced_easy.
        -- by eapply Sourced_none.
  - assert (CraftFailed (getItemPrice E fuel) recipe v1 w2 v1 w2) as Hf.
    { left. auto. }
    destruct (easyItems E !! name) eqn:H8; intros [= <- <- <-].
    * by eapply Sourced_easy.
    * by eapply Sourced_none.
Qed.

Lemma getItemPrice_Resolved_2 (fuel : nat) (itemName : string)
    (visited : gset string) (w : world) r visited' w' :
  Resolved E (getItemPrice E fuel) itemName visited w r visited' w' ->
  getItemPrice E (S fuel) itemName visited w = Done (r, visited', w').
Proof.
  cbn [getItemPrice].
  intros [->|Hne Hin|r' v1 w1 Hne Hin Hs].
  - done.
  - destruct (String.eqb_spec itemName ""); [done|]. by rewrite decide_True.
  - destruct (String.eqb_spec itemName ""); [done|]. rewrite decide_False by done.
    destruct Hs as [row H1|b H1 H2|e H1 H2 H3|l w2 (H1&H2&H3) H4
      |w2 recipe w3 total ml v3 w4 (H1&H2&H3) H4 H5 H6 H7 H8
      |w2 recipe w3 v3 w4 e (H1&H2&H3) H4 H5 Hf H6
      |w2 recipe w3 v3 w4 (H1&H2&H3) H4 H5 Hf H6].
    + by rewrite H1.
    + by rewrite H1, H2.
    + by rewrite H1, H2, H3.
    + by rewrite H1, H2, H3, H4.
    + rewrite H1, H2, H3, H4, H5, H6.
      destruct (ingredients (parseRecipeSlots recipe)) eqn:H9; [done|].
      by rewrite H8.
    + rewrite H1, H2, H3, H4, H5.
      destruct Hf as [([Hf|Hf]&->&->)|(Hf1&Hf2&Hf3)].
      * by rewrite Hf; cbn; rewrite H6.
      * rewrite Hf. destruct (truthy recipe); cbn; by rewrite H6.
      * rewrite Hf1. destruct (ingredients (parseRecipeSlots recipe)) eqn:H9; [done|].
        rewrite Hf3. cbn. by rewrite H6.
    + rewrite H1, H2, H3, H4, H5.
      destruct Hf as [([Hf|Hf]&->&->)|(Hf1&Hf2&Hf3)].
      * by rewrite Hf; cbn; rewrite H6.
      * rewrite Hf. destruct (truthy recipe); cbn; by rewrite H6.
      * rewrite Hf1. destruct (ingredients (parseRecipeSlots recipe)) eqn:H9; [done|].
        rewrite Hf3. cbn. by rewrite H6.
Qed.

(** *** The ingredient loops *)

Lemma addLine_entry total name (c : value) unit src lay q :
  toNumber c = Done q ->
  addLine total (Breakdown name c unit src lay) = (total + inject_Z unit * q)%Q.
Proof. unfold addLine, lineCost. cbn. by intros ->. Qed.



Lemma craftLoop_inv resolve ings total maxLayer visited w res visited' w' :
  craftLoop resolve ings total maxLayer visited w = Done (res, visited', w') ->
  (exists entries,
     AllPriced resolve ings visited w entries visited' w'
     /\ res = Some (fold_left addLine entries total,
                    fold_left craftLayerStep entries maxLayer))
  \/ (exists pre ing post entries visited1 w1,
        ings = (pre ++ ing :: post)%list
        /\ AllPriced resolve pre visited w entries visited1 w1
        /\ Unpriceable resolve ing visited1 w1 visited' w'
        /\ res = None).
Proof.
  revert total maxLayer visited w.
  induction ings as [|ing rest IH]; intros total maxLayer visited w.
  - intros [= <- <- <-]. left. exists []. split; [constructor|done].
  - cbn [craftLoop].
    destruct (upperOf (item ing)) as [name|] eqn:Hup; [|done]. cbn [obind].
    destruct (resolve name visited w) as [[[sub v1] w1]|] eqn:Hres; [|done].
    cbn [obind].
    destruct sub as [[[price|] src lay]|].
    + destruct (toNumber (orOne (count ing))) as [c|] eqn:Hc; [|done].
      cbn [obind]. intros H. apply IH in H.
      assert (AllPriced resolve [ing] visited w
                [Breakdown name (orOne (count ing)) price src lay] v1 w1) as H1.
      { eapply (AllPriced_cons _ _ _ _ _ _ (Priced (Some price) src lay));
          eauto; constructor. }
      destruct H as [(entries & Hall & ->)
                    |(pre & ing' & post & entries & v2 & w2 & -> & Hall & Hun & ->)].
      * left. eexists (_ :: entries). split.
        -- eapply (AllPriced_cons _ _ _ _ _ _ (Priced (Some price) src lay)); eauto.
        -- cbn [fold_left]. by erewrite addLine_entry.
      * right. exists (ing :: pre), ing', post. eexists (_ :: entries), v2, w2.
        split; [done|]. split; [|done].
        eapply (AllPriced_cons _ _ _ _ _ _ (Priced (Some price) src lay)); eauto.
    + intros [= <- <- <-]. right. exists [], ing, rest, [], visited, w.
      split; [done|]. split; [constructor|]. split; [|done].
      exists name, (Some (Priced None src lay)). eauto 10.
    + intros [= <- <- <-]. right. exists [], ing, rest, [], visited, w.
      split; [done|]. split; [constructor|]. split; [|done].
      exists name, None. eauto.
Qed.

Lemma marginLoop_priced fuel ings total breakdown maxLayers visited w entries
    visited' w' :
  AllPriced (freshResolve E fuel) ings visited w entries visited' w' ->
  marginLoop E fuel ings total breakdown maxLayers w
  = Done (Some (fold_left addLine entries total,
                (breakdown ++ entries)%list,
                fold_left marginLayerStep entries maxLayers), w').
Proof.
  intros H. revert total breakdown maxLayers.
  induction H as [|ing rest v w name [price src lay] v1 w1 unit c entries v2 w2
                   Hup Hres Hp Hc _ IH]; intros total breakdown maxLayers.
  - cbn. by rewrite app_nil_r.
  - cbn in Hp. subst price. unfold freshResolve in Hres.
    cbn [marginLoop]. rewrite Hup. cbn [obind]. rewrite Hres. cbn [obind].
    rewrite Hc. cbn [obind fold_left]. rewrite IH, round_inject_Z.
    erewrite addLine_entry by done. by rewrite <- app_assoc.
Qed.

Lemma marginLoop_unpriceable fuel pre ing post total breakdown maxLayers
    visited w entries visited1 w1 visited' w' :
  AllPriced (freshResolve E fuel) pre visited w entries visited1 w1 ->
  Unpriceable (freshResolve E fuel) ing visited1 w1 visited' w' ->
  marginLoop E fuel (pre ++ ing :: post) total breakdown maxLayers w
  = Done (None, w').
Proof.
  intros H. revert total breakdown maxLayers.
  induction H as [|ing0 rest v w name [price src lay] v1 w1 unit c entries v2 w2
                   Hup Hres Hp Hc _ IH]; intros total breakdown maxLayers Hun.
  - destruct Hun as (name & sub & Hup & Hres & Hsub). unfold freshResolve in Hres.
    cbn [app marginLoop]. rewrite Hup. cbn [obind]. rewrite Hres. cbn [obind].
    destruct Hsub as [->|([p src lay] & -> & Hp)]; [done|].
    cbn in Hp. by subst p.
  - cbn in Hp. subst price. unfold freshResolve in Hres.
    cbn [app marginLoop]. rewrite Hup. cbn [obind]. rewrite Hres. cbn [obind].
    rewrite Hc. cbn [obind]. by apply IH.
Qed.

Lemma marginLoop_inv fuel ings total breakdown maxLayers visited w res w' :
  marginLoop E fuel ings total breakdown maxLayers w = Done (res, w') ->
  (exists entries visited',
     AllPriced (freshResolve E fuel) ings visited w entries visited' w'
     /\ res = Some (fold_left addLine entries total,
                    (breakdown ++ entries)%list,
                    fold_left marginLayerStep entries maxLayers))
  \/ (exists pre ing post entries visited1 w1 visited',
        ings = (pre ++ ing :: post)%list
        /\ AllPriced (freshResolve E fuel) pre visited w entries visited1 w1
        /\ Unpriceable (freshResolve E fuel) ing visited1 w1 visited' w'
        /\ res = None).
Proof.
  revert total breakdown maxLayers visited w.
  induction ings as [|ing rest IH]; intros total breakdown maxLayers visited w.
  - intros [= <- <-]. left. exists [], visited.
    split; [constructor|]. by rewrite app_nil_r.
  - cbn [marginLoop].
    destruct (upperOf (item ing)) as [name|] eqn:Hup; [|done]. cbn [obind].
    destruct (getItemPrice E fuel name ∅ w) as [[[sub v1] w1]|] eqn:Hres; [|done].
    cbn [obind].
    destruct sub as [[[price|] src lay]|].
    + destruct (toNumber (orOne (count ing))) as [c|] eqn:Hc; [|done].
      cbn [obind]. rewrite round_inject_Z. intros H. apply (IH _ _ _ v1) in H.
      destruct H as [(entries & v2 & Hall & ->)
                    |(pre & ing' & post & entries & v2 & w2 & v3 & -> & Hall & Hun & ->)].
      * left. eexists (_ :: entries), v2. split.
        -- eapply (AllPriced_cons _ _ _ _ _ _ (Priced (Some price) src lay)); eauto.
        -- cbn [fold_left]. erewrite addLine_entry by done.
           by rewrite <- app_assoc.
      * right. exists (ing :: pre), ing', post. eexists (_ :: entries), v2, w2, v3.
        split; [done|]. split; [|done].
        eapply (AllPriced_cons _ _ _ _ _ _ (Priced (Some price) src lay)); eauto.
    + intros [= <- <-]. right. exists [], ing, rest, [], visited, w, v1.
      split; [done|]. split; [constructor|]. split; [|done].
      exists name, (Some (Priced None src lay)). eauto 10.
    + intros [= <- <-]. right. exists [], ing, rest, [], visited, w, v1.
      split; [done|]. split; [constructor|]. split; [|done].
      exists name, None. eauto.
Qed.

(** The craft loop's layer count is one more than the greatest layer of the
    ingredients, when there is an ingredient and no layer is negative. *)
Lemma craftLayerStep_fold entries m0 :
  let m := fold_left craftLayerStep entries m0 in
  m0 <= m
  /\ (forall b, b ∈ entries -> b_layers b + 1 <= m)
  /\ (m = m0 \/ exists b, b ∈ entries /\ m = b_layers b + 1).
Proof.
  revert m0. induction entries as [|b entries IH]; intros m0; cbn.
  - split; [lia|]. split; [|by left]. intros b Hb. by apply elem_of_nil in Hb.
  - destruct (IH (craftLayerStep m0 b)) as (H1 & H2 & H3).
    assert (m0 <= craftLayerStep m0 b /\ b_layers b + 1 <= craftLayerStep m0 b) as [??].
    { unfold craftLayerStep. destruct (Z.ltb_spec m0 (b_layers b + 1)); lia. }
    split; [lia|]. split.
    + intros b' [->|Hb]%elem_of_cons; [lia|by apply H2].
    + destruct H3 as [H3|(b' & Hb' & H3)].
      * assert (craftLayerStep m0 b = m0 \/ craftLayerStep m0 b = b_layers b + 1)
          as [Hs|Hs].
        { unfold craftLayerStep. destruct (m0 <? b_layers b + 1)%Z; auto. }
        -- left. congruence.
        -- right. exists b. split; [apply elem_of_cons; by left|congruence].
      * right. exists b'. split; [apply elem_of_cons; by right|done].
Qed.


(** *** What resolution preserves *)

Lemma wf_upsert_price name row w :
  0 <= layers row -> wf_prices w -> wf_prices (upsert_price name row w).
Proof.
  intros Hrow Hw n row'. cbn. rewrite lookup_insert.
  case_decide; [intros [= <-]; done|apply Hw].
Qed.

Lemma Framed_refl w r :
  (wf_prices w -> forall p, r = Some p -> 0 <= p_layers p) -> Framed w r w.
Proof. unfold Framed. auto. Qed.

Lemma Framed_trans w1 r1 w2 r2 w3 :
  Framed w1 r1 w2 -> Framed w2 r2 w3 -> Framed w1 r2 w3.
Proof.
  intros (H1 & H2 & H3) (H4 & H5 & H6).
  split; [congruence|]. split; [congruence|].
  intros Hw. apply H3 in Hw as [Hw _]. by apply H6.
Qed.

Lemma Framed_upsert w r w' name row p :
  Framed w r w' -> 0 <= layers row -> 0 <= p_layers p ->
  Framed w (Some p) (upsert_price name row w').
Proof.
  intros (H1 & H2 & H3) Hrow Hp. split; [done|]. split; [done|].
  intros Hw. apply H3 in Hw as [Hw _]. split.
  - by apply wf_upsert_price.
  - by intros ? [= <-].
Qed.

Lemma Framed_weaken w r w' :
  Framed w r w' -> Framed w None w'.
Proof.
  intros (H1 & H2 & H3). split; [done|]. split; [done|].
  intros Hw. apply H3 in Hw as [Hw _]. split; [done|]. by intros.
Qed.

Lemma fetchLBIN_framed name w l w1 :
  fetchLBIN E name w = (l, w1) -> Framed w None w1 /\ recipes w1 = recipes w.
Proof.
  unfold fetchLBIN, fetch. intros H.
  repeat case_match; simplify_eq; (split; [|done]);
    (split; [done|split; [done|intros Hw; split; [|done]]]);
    first [exact Hw | apply wf_upsert_price; [done|exact Hw]].
Qed.

Lemma getRecipeCached_framed name w recipe w1 :
  getRecipeCached E name w = (recipe, w1) ->
  Framed w None w1 /\ prices w1 = prices w.
Proof.
  unfold getRecipeCached, fetchAndStoreRecipe, fetch. intros H.
  repeat case_match; simplify_eq; (split; [|done]);
    (split; [done|split; [done|intros Hw; split; [|done]]]); exact Hw.
Qed.

Lemma AllPriced_framed resolve ings visited w entries visited' w' :
  Sound resolve ->
  AllPriced resolve ings visited w entries visited' w' ->
  Framed w None w'
  /\ (wf_prices w -> forall b, b ∈ entries -> 0 <= b_layers b).
Proof.
  intros Hs H.
  induction H as [|ing rest v w name sub v1 w1 unit c entries v2 w2
                   Hup Hres Hp Hc _ [IH1 IH2]].
  - split; [by apply Framed_refl|]. intros _ b Hb. by apply elem_of_nil in Hb.
  - apply Hs in Hres. split.
    + eapply Framed_trans; eauto.
    + intros Hw b [->|Hb]%elem_of_cons.
      * cbn. destruct Hres as (_ & _ & Hres). by apply Hres.
      * destruct Hres as (_ & _ & Hres). apply IH2; [|done]. by apply Hres.
Qed.

Lemma Unpriceable_framed resolve ing visited w visited' w' :
  Sound resolve ->
  Unpriceable resolve ing visited w visited' w' -> Framed w None w'.
Proof.
  intros Hs (name & sub & _ & Hres & _). apply Hs in Hres.
  by eapply Framed_weaken.
Qed.

Lemma CraftFailed_framed resolve recipe visited w visited' w' :
  Sound resolve ->
  CraftFailed resolve recipe visited w visited' w' -> Framed w None w'.
Proof.
  intros Hs [(_ & _ & ->)|(_ & _ & H)]; [by apply Framed_refl|].
  apply craftLoop_inv in H
    as [(? & _ & [=])|(pre & ing & post & es & v1 & w1 & _ & Hall & Hun & _)].
  eapply Framed_trans.
  - by eapply AllPriced_framed.
  - by eapply Unpriceable_framed.
Qed.

Lemma getItemPrice_sound fuel : Sound (getItemPrice E fuel).
Proof.
  induction fuel as [|fuel IH]; intros itemName visited w r visited' w' H;
    [done|].
  apply getItemPrice_Resolved_1 in H.
  destruct H as [_|_ _|r v' w' _ _ H]; [by apply Framed_refl..|].
  destruct H as [row H1|b H1 H2|e H1 H2 H3|l w1 Hno H4
      |w1 recipe w2 total ml v3 w3 Hno H4 H5 H6 H7 H8
      |w1 recipe w2 v3 w3 e Hno H4 H5 Hf H6
      |w1 recipe w2 v3 w3 Hno H4 H5 Hf H6].
  - apply Framed_refl. intros Hw p [= <-]. cbn.
    unfold freshRow in H1. destruct (prices w !! _) as [row'|] eqn:Hrow; [|done].
    destruct (_ <? _)%Z; [|done]. injection H1 as ->. by eapply Hw.
  - eapply (Framed_upsert _ None); [by apply Framed_refl|done..].
  - eapply (Framed_upsert _ None); [by apply Framed_refl|done..].
  - apply fetchLBIN_framed in H4 as [(H4a & H4b & H4c) _].
    split; [done|]. split; [done|]. intros Hw. apply H4c in Hw as [Hw _].
    split; [done|]. by intros ? [= <-].
  - apply fetchLBIN_framed in H4 as [H4 _].
    apply getRecipeCached_framed in H5 as [H5 _].
    apply craftLoop_inv in H8
      as [(es & Hall & [= -> ->])|(? & ? & ? & ? & ? & ? & _ & _ & _ & [=])].
    destruct (AllPriced_framed _ _ _ _ _ _ _ IH Hall) as [H9 H10].
    pose proof (Framed_trans _ _ _ _ _ (Framed_trans _ _ _ _ _ H4 H5) H9)
      as (Ha & Hb & Hc).
    assert (wf_prices w -> 0 <= fold_left craftLayerStep es 0) as Hlay.
    { intros _. by destruct (craftLayerStep_fold es 0) as [? _]. }
    split; [done|]. split; [done|]. intros Hw. specialize (Hlay Hw).
    apply Hc in Hw as [Hw _]. split.
    + by apply wf_upsert_price.
    + by intros ? [= <-].
  - apply fetchLBIN_framed in H4 as [H4 _].
    apply getRecipeCached_framed in H5 as [H5 _].
    apply (CraftFailed_framed _ _ _ _ _ _ IH) in Hf.
    eapply Framed_upsert; [|done..].
    eapply Framed_trans; [|exact Hf]. eapply Framed_trans; eauto.
  - apply fetchLBIN_framed in H4 as [H4 _].
    apply getRecipeCached_framed in H5 as [H5 _].
    apply (CraftFailed_framed _ _ _ _ _ _ IH) in Hf.
    eapply Framed_trans; [|exact Hf]. eapply Framed_trans; eauto.
Qed.

Lemma freshResolve_sound fuel : Sound (freshResolve E fuel).
Proof. intros name v w r v' w' H. by eapply getItemPrice_sound. Qed.

(** *** The cache hit *)

Lemma fresh_row_hit (fuel : nat) (itemName : string)
    (visited : gset string) (w : world) (row : price_row) :
  itemName <> "" ->
  toUpperCase itemName ∉ visited ->
  prices w !! toUpperCase itemName = Some row ->
  nowTs w - updatedAt row < PRICE_CACHE_TTL ->
  getItemPrice E (S fuel) itemName visited w
  = Done (Some (Priced (price row) (source row) (layers row)),
          {[toUpperCase itemName]} ∪ visited, w).
Proof.
  intros Hne Hnv Hrow Hage.
  apply getItemPrice_Resolved_2. constructor 3; [done..|].
  assert (freshRow (nowTs w) (prices w !! toUpperCase itemName) = Some row) as Hf.
  { rewrite Hrow. cbn.
    destruct (Z.ltb_spec (nowTs w - updatedAt row) PRICE_CACHE_TTL); [done|lia]. }
  by constructor.
Qed.

(** C6. For every item with a persisted price row whose age is within the
    TTL, a call of [getItemPrice] on the item returns that row's price,
    source and layers as they are, and leaves the world as it found it: no
    provider call is added to the trace and no table or cache is written. *)
Theorem fresh_row_returned_verbatim (fuel : nat) (itemName : string)
    (w : world) (row : price_row) :
  itemName <> "" ->
  prices w !! toUpperCase itemName = Some row ->
  nowTs w - updatedAt row < PRICE_CACHE_TTL ->
  exists visited',
    getItemPrice E (S fuel) itemName ∅ w
    = Done (Some (Priced (price row) (source row) (layers row)), visited', w).
Proof.
  intros Hne Hrow Hage. eexists.
  apply fresh_row_hit; [done|apply not_elem_of_empty|done..].
Qed.

End Resolution.

Section CraftBranch.

Context (E : env).

(** *** The auction-low fetch *)

Lemma fetchLBIN_inv name w res w1 :
  fetchLBIN E name w = (res, w1) ->
  let w0 := afterCall (auctions E) (AuctionCall name) name w in
  (exists a arr min,
     body (auctions E name (clock w)) = Some (VArray (a :: arr))
     /\ lowestBin (a :: arr) None = Some (Some min)
     /\ res = Some min
     /\ w1 = upsert_price name (PriceRow (Some (round min)) "lbin" 0 (nowTs w0))
               (set_lbin name (Lbin min (nowTs w0)) w0))
  \/ (res = None /\ w1 = w0).
Proof.
  unfold fetchLBIN, afterCall.
  set (w0 := (fetch (auctions E) (AuctionCall name) name w).2).
  change (fetch (auctions E) (AuctionCall name) name w)
    with (body (auctions E name (clock w)), w0).
  cbv zeta.
  destruct (body (auctions E name (clock w))) as [v|]; [|intros [= <- <-]; by right].
  destruct v as [| | | |[|a arr]|]; try (intros [= <- <-]; by right).
  destruct (lowestBin (a :: arr) None) as [[min|]|] eqn:Hl;
    intros [= <- <-]; [|by right..].
  left. by exists a, arr, min.
Qed.

Lemma AllPriced_length resolve ings visited w entries visited' w' :
  AllPriced resolve ings visited w entries visited' w' ->
  length entries = length ings.
Proof. induction 1; cbn; congruence. Qed.

(** *** The craft branch *)


End CraftBranch.


Lemma fresh_row_returned_verbatim_witness :
  "diamond" <> ""
  /\ prices Sample.worldCached !! toUpperCase "diamond" = Some Sample.diamondRow
  /\ nowTs Sample.worldCached - updatedAt Sample.diamondRow < PRICE_CACHE_TTL
  /\ exists visited',
       getItemPrice Sample.env0 1 "diamond" ∅ Sample.worldCached
       = Done (Some (Priced (Some 800) "lbin" 0), visited', Sample.worldCached).
Proof.
  assert ("diamond" <> "") as H1 by discriminate.
  assert (prices Sample.worldCached !! toUpperCase "diamond"
          = Some Sample.diamondRow) as H3 by reflexivity.
  assert (nowTs Sample.worldCached - updatedAt Sample.diamondRow
          < PRICE_CACHE_TTL) as H4 by reflexivity.
  refine (conj H1 (conj H3 (conj H4 _))).
  exact (fresh_row_returned_verbatim Sample.env0 0 "diamond"
           Sample.worldCached Sample.diamondRow H1 H3 H4).
Defined.

(** C10 (as the code has it). [GET /item-price/:item] for an item with no
    recipe row, no price row and no margin row under its upper-cased name
    answers 200, without failing, with the upper-cased name and [recipe]
    null; [priceRow] and [margin], for which the store gave [undefined], are
    not in the body. *)
Theorem item_price_route_never_seen (param : string) (w : world) :
  recipes w !! toUpperCase param = None ->
  prices w !! toUpperCase param = None ->
  craft_margins w !! toUpperCase param = None ->
  itemPriceRoute param w
  = Json 200 (VObject [("item", VString (toUpperCase param));
                       ("recipe", VNull)]).
Proof. unfold itemPriceRoute. by intros -> -> ->. Qed.

Lemma item_price_route_never_seen_witness :
  recipes Sample.world0 !! toUpperCase "foo" = None
  /\ prices Sample.world0 !! toUpperCase "foo" = None
  /\ craft_margins Sample.world0 !! toUpperCase "foo" = None
  /\ itemPriceRoute "foo" Sample.world0
     = Json 200 (VObject [("item", VString "FOO"); ("recipe", VNull)]).
Proof.
  refine (conj eq_refl (conj eq_refl (conj eq_refl _))).
  exact (item_price_route_never_seen "foo" Sample.world0
           eq_refl eq_refl eq_refl).
Defined.

Section MarginEngine.

Context (E : env).

(** *** The margin engine *)

Lemma getRecipeCached_margins name w recipe w1 :
  getRecipeCached E name w = (recipe, w1) ->
  craft_margins w1 = craft_margins w.
Proof. intros H. by apply getRecipeCached_framed in H as [(? & _) _]. Qed.

(** A completed margin computation, by cases. *)
Lemma computeMarginForItem_inv fuel itemName w res w' :
  computeMarginForItem E fuel itemName w = Done (res, w') ->
  (res = None /\ w' = w
   /\ (bazaarPrices w !! itemName = None
       \/ exists bz, bazaarPrices w !! itemName = Some bz /\ sell bz = None))
  \/ exists bz bzSell recipe w2,
       bazaarPrices w !! itemName = Some bz
       /\ sell bz = Some bzSell
       /\ getRecipeCached E itemName w = (recipe, w2)
       /\ ((res = None /\ w' = w2
            /\ (truthy recipe = false
                \/ ingredients (parseRecipeSlots recipe) = []))
           \/ (truthy recipe = true
               /\ exists looped w3,
                    marginLoop E fuel (ingredients (parseRecipeSlots recipe))
                      0 [] 0 w2 = Done (looped, w3)
                    /\ match looped with
                       | None => res = None /\ w' = w3
                       | Some (total, breakdown, maxLayers) =>
                           let perOutput :=
                             round (total
                                    / inject_Z (outputCount (parseRecipeSlots recipe))) in
                           let sellPrice := round bzSell in
                           let profit := round (inject_Z (sellPrice - perOutput)) in
                           let marginPercent :=
                             if (0 <? perOutput)%Z
                             then toFixed2 (percentOf profit perOutput)
                             else 0%Q in
                           res = Some (Margin itemName perOutput sellPrice profit
                                         marginPercent breakdown maxLayers)
                           /\ w' = upsert_margin itemName
                                     (MarginRow perOutput sellPrice profit
                                        marginPercent (nowTs w3)) w3
                       end)).
Proof.
  unfold computeMarginForItem.
  destruct (bazaarPrices w !! itemName) as [bz|] eqn:Hbz;
    [|intros [= <- <-]; left; auto].
  destruct (sell bz) as [bzSell|] eqn:Hsell;
    [|intros [= <- <-]; left; eauto 10].
  destruct (getRecipeCached E itemName w) as [recipe w2] eqn:Hrec.
  intros H. right. exists bz, bzSell, recipe, w2. do 3 (split; [done|]).
  destruct (truthy recipe); cbn [negb] in H; [|injection H as <- <-; left; auto].
  destruct (ingredients (parseRecipeSlots recipe)) as [|ing ings] eqn:Hings;
    [injection H as <- <-; left; auto|].
  right. split; [done|].
  destruct (marginLoop E fuel (ing :: ings) 0 [] 0 w2)
    as [[[[[total breakdown] maxLayers]|] w3]|]; cbn [obind] in H; [| |done].
  - injection H as <- <-. eexists _, w3. split; [done|]. by cbn.
  - injection H as <- <-. by eexists None, w3.
Qed.

Lemma marginLoop_margins fuel ings total breakdown maxLayers w res w' :
  marginLoop E fuel ings total breakdown maxLayers w = Done (res, w') ->
  craft_margins w' = craft_margins w.
Proof.
  intros H. apply (marginLoop_inv _ _ _ _ _ _ ∅) in H
    as [(ents & v' & Hall & _)
       |(pre & ing & post & ents & v1 & w1 & v' & _ & Hall & Hun & _)].
  - by apply (AllPriced_framed _ _ _ _ _ _ _ (freshResolve_sound E fuel))
      in Hall as [(? & _) _].
  - apply (AllPriced_framed _ _ _ _ _ _ _ (freshResolve_sound E fuel))
      in Hall as [(H1 & _) _].
    apply (Unpriceable_framed _ _ _ _ _ _ (freshResolve_sound E fuel))
      in Hun as (H2 & _).
    congruence.
Qed.

(** C5 (as the code has it). [computeMarginForItem] returns null when the
    item has no bazaar sell price (then touching nothing at all), when its
    recipe is missing or yields no ingredient, and when an ingredient,
    resolved from an empty visited set of its own, is unpriceable.  Whenever
    it returns null the margin table is as it was before the call.  The
    recipe row and the price rows written on the way are not undone. *)
Theorem margin_failure_writes_no_margin (fuel : nat) (itemName : string)
    (w : world) :
  ((bazaarPrices w !! itemName = None
    \/ exists bz, bazaarPrices w !! itemName = Some bz /\ sell bz = None) ->
   computeMarginForItem E fuel itemName w = Done (None, w))
  /\ (forall bz bzSell recipe w2,
        bazaarPrices w !! itemName = Some bz ->
        sell bz = Some bzSell ->
        getRecipeCached E itemName w = (recipe, w2) ->
        (truthy recipe = false \/ ingredients (parseRecipeSlots recipe) = [] ->
         computeMarginForItem E fuel itemName w = Done (None, w2))
        /\ (forall pre ing post ents visited1 w3 name sub visited4 w4,
              truthy recipe = true ->
              ingredients (parseRecipeSlots recipe) = (pre ++ ing :: post)%list ->
              AllPriced (freshResolve E fuel) pre ∅ w2 ents visited1 w3 ->
              upperOf (item ing) = Done name ->
              getItemPrice E fuel name ∅ w3 = Done (sub, visited4, w4) ->
              (sub = None \/ exists p, sub = Some p /\ p_price p = None) ->
              computeMarginForItem E fuel itemName w = Done (None, w4)))
  /\ (forall w',
        computeMarginForItem E fuel itemName w = Done (None, w') ->
        craft_margins w' = craft_margins w).
Proof.
  split; [|split].
  - unfold computeMarginForItem. intros [->|(bz & -> & ->)]; done.
  - intros bz bzSell recipe w2 Hbz Hsell Hrec. split.
    + unfold computeMarginForItem. rewrite Hbz, Hsell, Hrec.
      intros [->|Hings]; [done|].
      destruct (truthy recipe); [|done]. cbn [negb]. by rewrite Hings.
    + intros pre ing post ents v1 w3 name sub v4 w4 Htr Hings Hall Hup Hres Hsub.
      assert (Unpriceable (freshResolve E fuel) ing v1 w3 v4 w4) as Hun.
      { by exists name, sub. }
      pose proof (marginLoop_unpriceable E fuel pre ing post 0 [] 0 _ _ _ _ _ _ _
                    Hall Hun) as Hloop.
      rewrite <- Hings in Hloop.
      unfold computeMarginForItem. rewrite Hbz, Hsell, Hrec, Htr. cbn [negb].
      destruct (ingredients (parseRecipeSlots recipe)); [by destruct pre|].
      by rewrite Hloop.
  - intros w' H. apply computeMarginForItem_inv in H
      as [(_ & -> & _)|(bz & bzSell & recipe & w2 & _ & _ & Hrec & H)]; [done|].
    apply getRecipeCached_margins in Hrec.
    destruct H as [(_ & -> & _)|(_ & looped & w3 & Hloop & H)]; [done|].
    apply marginLoop_margins in Hloop.
    destruct looped as [[[total breakdown] maxLayers]|].
    + by destruct H as [[=] _].
    + destruct H as [_ ->]. congruence.
Qed.

End MarginEngine.

Section AuctionLow.

Context (E : env).

Lemma lowerOf_cases acc a :
  (lowerOf acc a = acc
   \/ exists p, listingPrice a = VNumber (Num p) /\ lowerOf acc a = Some p)
  /\ (forall m0, acc = Some m0 ->
       exists m1, lowerOf acc a = Some m1 /\ (m1 <= m0)%Q)
  /\ (forall p, listingPrice a = VNumber (Num p) ->
       exists m1, lowerOf acc a = Some m1 /\ (m1 <= p)%Q).
Proof.
  unfold lowerOf.
  destruct (listingPrice a) as [| |[|p]| | |] eqn:Hlp;
    try (split; [by left|]; split; [intros m0 ->; eexists; split; [done|apply Qle_refl]|done]).
  destruct acc as [m|].
  - destruct (Qlt_le_dec p m) as [Hlt|Hge].
    + split; [right; by exists p|]. split.
      * intros m0 [= <-]. exists p. split; [done|]. by apply Qlt_le_weak.
      * intros p' [= <-]. exists p. split; [done|]. apply Qle_refl.
    + split; [by left|]. split.
      * intros m0 [= <-]. exists m. split; [done|]. apply Qle_refl.
      * intros p' [= <-]. by exists m.
  - split; [right; by exists p|]. split; [done|].
    intros p' [= <-]. exists p. split; [done|]. apply Qle_refl.
Qed.

(** The loop of [fetchLBIN] ends on the least of the numeric listing
    prices, each listing counted by the first of its price fields. *)
Lemma lowestBin_least arr acc min :
  lowestBin arr acc = Some (Some min) ->
  (acc = Some min \/ exists a, a ∈ arr /\ listingPrice a = VNumber (Num min))
  /\ (forall m0, acc = Some m0 -> (min <= m0)%Q)
  /\ (forall a p, a ∈ arr -> listingPrice a = VNumber (Num p) -> (min <= p)%Q).
Proof.
  revert acc. induction arr as [|a arr IH]; intros acc; cbn [lowestBin].
  - intros [= ->]. split; [by left|]. split.
    + intros m0 [= ->]. apply Qle_refl.
    + intros a p Ha. by apply elem_of_nil in Ha.
  - intros H.
    assert (lowestBin arr (lowerOf acc a) = Some (Some min)) as Hrun
      by (by destruct a).
    clear H. destruct (IH _ Hrun) as (H1 & H2 & H3).
    destruct (lowerOf_cases acc a) as (C1 & C2 & C3).
    split; [|split].
    + destruct H1 as [H1|(a0 & Ha0 & H1)].
      * destruct C1 as [C1|(p & Hp & C1)]; [left; congruence|].
        right. exists a. split; [apply elem_of_cons; by left|congruence].
      * right. exists a0. split; [apply elem_of_cons; by right|done].
    + intros m0 Hm0. destruct (C2 _ Hm0) as (m1 & Hm1 & Hle).
      eapply Qle_trans; [by apply H2|done].
    + intros a0 p [->|Ha0]%elem_of_cons Hlp; [|by eapply H3].
      destruct (C3 _ Hlp) as (m1 & Hm1 & Hle).
      eapply Qle_trans; [by apply H2|done].
Qed.

Lemma fetchLBIN_found name w a arr min :
  body (auctions E name (clock w)) = Some (VArray (a :: arr)) ->
  lowestBin (a :: arr) None = Some (Some min) ->
  let w0 := afterCall (auctions E) (AuctionCall name) name w in
  fetchLBIN E name w
  = (Some min,
     upsert_price name (PriceRow (Some (round min)) "lbin" 0 (nowTs w0))
       (set_lbin name (Lbin min (nowTs w0)) w0)).
Proof.
  intros Hbody Hlow. unfold fetchLBIN, afterCall.
  change (fetch (auctions E) (AuctionCall name) name w)
    with (body (auctions E name (clock w)),
          (fetch (auctions E) (AuctionCall name) name w).2).
  cbv zeta. by rewrite Hbody, Hlow.
Qed.

End AuctionLow.

Section Keys.

Context (E : env).

Lemma getItemPrice_upper fuel itemName visited w :
  getItemPrice E fuel (toUpperCase itemName) visited w
  = getItemPrice E fuel itemName visited w.
Proof.
  destruct fuel as [|fuel]; [done|].
  cbn [getItemPrice]. by rewrite eqb_empty_upper, toUpperCase_idem.
Qed.

(** C9 (as the code has it). [getItemPrice] and the per-item route work on
    the upper-cased name, so that a name and its upper-case form get the
    same answer from each.  [computeMarginForItem] takes its argument as
    the key, unchanged: the margin row is written under that very name, and
    the route finds it when the name is already in upper case. *)
Theorem item_keys (fuel : nat) (itemName : string) (visited : gset string)
    (w : world) :
  getItemPrice E fuel itemName visited w
  = getItemPrice E fuel (toUpperCase itemName) visited w
  /\ itemPriceRoute itemName w = itemPriceRoute (toUpperCase itemName) w
  /\ forall m w',
       computeMarginForItem E fuel itemName w = Done (Some m, w') ->
       let view := MarginView (m_costPerUnit m) (m_sellPrice m) (m_profit m)
                     (m_marginPercent m) in
       m_item m = itemName
       /\ viewOf <$> craft_margins w' !! itemName = Some view
       /\ (forall k, k <> itemName ->
                     craft_margins w' !! k = craft_margins w !! k)
       /\ (toUpperCase itemName = itemName ->
           exists body,
             itemPriceRoute itemName w' = Json 200 body
             /\ own body "margin" = Some (marginJson view)).
Proof.
  split; [by rewrite getItemPrice_upper|].
  split; [unfold itemPriceRoute; by rewrite toUpperCase_idem|].
  intros m w' H.
  apply computeMarginForItem_inv in H
    as [([=] & _)|(bz & bzSell & recipe & w2 & Hbz & Hsell & Hrec & H)].
  destruct H as [([=] & _)|(Htr & looped & w3 & Hloop & H)].
  destruct looped as [[[total breakdown] maxLayers]|]; [|by destruct H].
  destruct H as [[= ->] ->].
  cbn [m_item m_profit m_sellPrice m_costPerUnit m_marginPercent].
  apply marginLoop_margins in Hloop. apply getRecipeCached_margins in Hrec.
  assert (forall A B (f : A -> B) k (x : A) (t : gmap string A),
            f <$> (<[k:=x]> t !! k) = Some (f x)) as Hlook.
  { intros. by rewrite lookup_insert_eq. }
  split; [done|]. split; [apply Hlook|]. split.
  - intros k Hk. cbn. rewrite lookup_insert_ne by done. congruence.
  - intros Hup. unfold itemPriceRoute. rewrite Hup. eexists. split; [done|].
    cbn [craft_margins upsert_margin]. rewrite Hlook.
    unfold stringify. cbn [d_item d_recipe d_priceRow d_margin].
    by destruct (prices _ !! itemName).
Qed.

End Keys.

Section Cycles.

Context (E : env) (U : gset string).










End Cycles.

(** ** The recipe parser *)

Lemma row_letter (c : ascii) :
  ((65 <=? N_of_ascii c) && (N_of_ascii c <=? 67))%N = true ->
  c = "A"%char \/ c = "B"%char \/ c = "C"%char.
Proof.
  destruct c as [[] [] [] [] [] [] [] []]; cbn; intros H;
    first [discriminate H | by left | by right; left | by right; right].
Qed.

Lemma column_digit (c : ascii) :
  ((49 <=? N_of_ascii c) && (N_of_ascii c <=? 51))%N = true ->
  c = "1"%char \/ c = "2"%char \/ c = "3"%char.
Proof.
  destruct c as [[] [] [] [] [] [] [] []]; cbn; intros H;
    first [discriminate H | by left | by right; left | by right; right].
Qed.

(** The keys the parser looks at are the nine of the grid and no other. *)
Lemma is_slot_key_spec (k : string) :
  is_slot_key k = true <-> k ∈ slotKeys.
Proof.
  split.
  - destruct k as [|r [|c [|? ?]]]; cbn [is_slot_key]; try done.
    intros H. rewrite <- !andb_assoc in H.
    apply andb_prop in H as [H1 H]. apply andb_prop in H as [H2 H].
    assert (((65 <=? N_of_ascii r) && (N_of_ascii r <=? 67))%N = true) as Hr
      by (by rewrite H1, H2).
    apply row_letter in Hr. apply column_digit in H.
    unfold slotKeys. destruct Hr as [->|[->| ->]], H as [->|[->| ->]];
      set_solver.
  - unfold slotKeys. intros H.
    repeat (apply elem_of_cons in H as [->|H]; [done|]).
    by apply elem_of_nil in H.
Qed.

Lemma parseSlot_other_key (k : string) (v : value) :
  k ∉ slotKeys -> parseSlot k v = None.
Proof.
  intros Hk. unfold parseSlot.
  destruct (is_slot_key k) eqn:H; [|done]. by apply is_slot_key_spec in H.
Qed.

(** Every entry is read on its own: what one slot holds changes nothing to
    what the others yield. *)
Lemma parseRecipeSlots_app (fields1 fields2 : list (string * value)) :
  ingredients (parseRecipeSlots (VObject (fields1 ++ fields2)))
  = (ingredients (parseRecipeSlots (VObject fields1))
     ++ ingredients (parseRecipeSlots (VObject fields2)))%list.
Proof. cbn. apply omap_app. Qed.

(** A string slot yields a trimmed, non-empty id and an integer count. *)
Lemma parseSlot_string (k s : string) (ing : ingredient) :
  parseSlot k (VString s) = Some ing ->
  exists id n,
    ing = Ingredient (VString id) (VInt n)
    /\ id = trim (hd "" (split ":" s)) /\ id <> ""
    /\ n = default 1 (count_part (split ":" s)).
Proof.
  unfold parseSlot.
  destruct (is_slot_key k); [|done]. cbn [negb].
  destruct (truthy (VString s)); [|done]. cbn [negb].
  destruct (String.eqb_spec (trim (hd "" (split ":" s))) "") as [|Hid]; [done|].
  intros [= <-]. eauto 10.
Qed.

Lemma outputCount_positive (recipe : value) :
  1 <= outputCount (parseRecipeSlots recipe).
Proof.
  cbn. unfold outputCountOf.
  destruct (nullish (own recipe "count") None) as [c|]; [|lia].
  destruct (parseIntOf c) as [parsed|]; [|lia].
  destruct (Z.ltb_spec 0 parsed); lia.
Qed.

Lemma outputCount_default (fields : list (string * value)) :
  assoc "count" fields = None ->
  outputCount (parseRecipeSlots (VObject fields)) = 1.
Proof. cbn. unfold outputCountOf. cbn. by intros ->. Qed.

(** C8. On the recipe [{A1: {x: "STICK:abc"}}], whose slot is a structured
    record with a string as first value and a count that is not a number,
    [parseRecipeSlots] yields the ingredient STICK with count [NaN], where
    the same text as a plain string slot yields count 1. *)
Theorem fallback_slot_count_not_defaulted :
  parseRecipeSlots (VObject [("A1", VObject [("x", VString "STICK:abc")])])
  = Parsed [Ingredient (VString "STICK") (VNumber NaN)] 1
  /\ parseRecipeSlots (VObject [("A1", VString "STICK:abc")])
     = Parsed [Ingredient (VString "STICK") (VInt 1)] 1.
Proof. split; reflexivity. Qed.

(** ** The claims at concrete inputs *)






(** C5, as stated, fails: the axe has a sell price and a recipe, its second
    ingredient cannot be priced, and the call returns null; yet the price of
    the first ingredient and the recipe fetched are in the store after it. *)
Lemma failed_margin_leaves_rows_behind :
  exists w',
    computeMarginForItem Scenario.envAxe 2 "AXE" Scenario.worldAxe
    = Done (None, w')
    /\ prices Scenario.worldAxe !! "COBBLESTONE" = None
    /\ prices w' !! "COBBLESTONE" = Some (PriceRow (Some 10) "bazaar" 0 100007)
    /\ recipes Scenario.worldAxe !! "AXE" = None
    /\ recipes w' !! "AXE" = Some (RecipeRow Scenario.axeRecipe 100007).
Proof. vm_compute. eexists. repeat split; reflexivity. Qed.

Lemma margin_failure_writes_no_margin_witness :
  exists w',
    computeMarginForItem Scenario.envAxe 2 "AXE" Scenario.worldAxe
    = Done (None, w')
    /\ craft_margins w' = craft_margins Scenario.worldAxe.
Proof.
  assert (exists w',
            computeMarginForItem Scenario.envAxe 2 "AXE" Scenario.worldAxe
            = Done (None, w')) as (w' & Hrun).
  { vm_compute. eexists. reflexivity. }
  exists w'. split; [exact Hrun|].
  destruct (margin_failure_writes_no_margin Scenario.envAxe 2 "AXE"
              Scenario.worldAxe) as (_ & _ & Hsame).
  exact (Hsame w' Hrun).
Defined.

(** C7, as stated, fails: the live fetch finds DIAMOND at 1200.4, the call
    returns 1200 with source [lbin], and the price store, empty before,
    holds that row after.  And with a [null] between a listing at 1500 and
    a listing at 900 the call returns absent, valid listings or not. *)
Lemma live_auction_low_is_in_the_store :
  (exists visited' w',
     getItemPrice Scenario.envAuction 1 "diamond" ∅ Sample.emptyWorld
     = Done (Some (Priced (Some 1200) "lbin" 0), visited', w')
     /\ prices Sample.emptyWorld !! "DIAMOND" = None
     /\ prices w' !! "DIAMOND" = Some (PriceRow (Some 1200) "lbin" 0 100005))
  /\ (exists visited' w',
        getItemPrice envNullListing 1 "diamond" ∅ Sample.emptyWorld
        = Done (None, visited', w')
        /\ prices w' !! "DIAMOND" = None).
Proof. split; vm_compute; eexists _, _; repeat split; reflexivity. Qed.

(** C9, as stated, fails: the feed lists the product as [pick]; the margin
    is computed and stored under [pick], and the per-item query for [pick],
    which looks under [PICK], reports no margin, no recipe and no price. *)
Lemma margin_key_is_not_upper_cased :
  exists m w',
    computeMarginForItem Scenario.envLower 2 "pick" Scenario.worldLower
    = Done (Some m, w')
    /\ m_item m = "pick"
    /\ is_Some (craft_margins w' !! "pick")
    /\ craft_margins w' !! "PICK" = None
    /\ itemPriceRoute "pick" w'
       = Json 200 (VObject [("item", VString "PICK"); ("recipe", VNull)]).
Proof.
  vm_compute. eexists _, _. repeat split; try reflexivity. eexists. reflexivity.
Qed.

Lemma item_keys_witness :
  exists m w' body,
    computeMarginForItem Sample.env0 2 "PICK" Sample.world0 = Done (Some m, w')
    /\ getItemPrice Sample.env0 2 "pick" ∅ Sample.world0
       = getItemPrice Sample.env0 2 "PICK" ∅ Sample.world0
    /\ itemPriceRoute "PICK" w' = Json 200 body
    /\ own body "margin"
       = Some (marginJson
                 (MarginView (m_costPerUnit m) (m_sellPrice m) (m_profit m)
                    (m_marginPercent m))).
Proof.
  assert (exists m w',
            computeMarginForItem Sample.env0 2 "PICK" Sample.world0
            = Done (Some m, w')) as (m & w' & Hrun).
  { vm_compute. eexists _, _. reflexivity. }
  destruct (item_keys Sample.env0 2 "PICK" ∅ Sample.world0) as (_ & _ & Hm).
  destruct (Hm m w' Hrun) as (_ & _ & _ & Hroute).
  destruct (Hroute eq_refl) as (body & Hr & Hmargin).
  exists m, w', body. split; [exact Hrun|]. split; [|by split].
  exact (proj1 (item_keys Sample.env0 2 "pick" ∅ Sample.world0)).
Defined.

(** C10, as stated, fails: for FOO, which no table knows, the body has the
    name and a null recipe and nothing else; it is not the body with
    [priceRow] and [margin] null. *)
Lemma never_seen_item_has_no_null_rows :
  itemPriceRoute "FOO" Sample.emptyWorld
  = Json 200 (VObject [("item", VString "FOO"); ("recipe", VNull)])
  /\ itemPriceRoute "FOO" Sample.emptyWorld
     <> Json 200 (VObject [("item", VString "FOO"); ("recipe", VNull);
                           ("priceRow", VNull); ("margin", VNull)]).
Proof. split; [reflexivity|discriminate]. Qed.

(** A recipe that names one item twice.  A plank is crafted from LOG in
    slot A1 and LOG in slot A2, and the bazaar sells LOG at 10.  The second
    LOG is turned away by the visited set, which still holds the first: to
    the craft branch it is an ingredient without a price, and
    [getItemPrice] returns absent and persists no price for the plank.
    [computeMarginForItem], which gives every ingredient a set of its own,
    prices the same recipe at [round ((10 * 1 + 10 * 1) / 1) = 20]. *)
Lemma repeated_ingredient_fails_craft :
  (exists visited' w',
     getItemPrice Scenario.envPlank 2 "PLANK" ∅ Scenario.worldPlank
     = Done (None, visited', w')
     /\ "LOG" ∈ visited'
     /\ prices w' !! "LOG" = Some (PriceRow (Some 10) "bazaar" 0 100012)
     /\ prices w' !! "PLANK" = None)
  /\ (exists m w',
        computeMarginForItem Scenario.envPlank 2 "PLANK" Scenario.worldPlank
        = Done (Some m, w')
        /\ m_costPerUnit m = 20).
Proof.
  split; vm_compute.
  - eexists _, _. repeat split; reflexivity.
  - eexists _, _. split; reflexivity.
Qed.

(** ** More on the recipe parser *)

Lemma assoc_other_key (k k' : string) (v : value)
    (pre post : list (string * value)) :
  k' <> k -> assoc k (pre ++ (k', v) :: post) = assoc k (pre ++ post).
Proof.
  intros Hk. induction pre as [|[k0 v0] pre IH]; cbn.
  - destruct (String.eqb_spec k k'); [congruence|done].
  - by rewrite IH.
Qed.

Lemma slots_cons (k : string) (v : value) (es : list (string * value)) :
  omap (fun kv => parseSlot kv.1 kv.2) ((k, v) :: es)
  = match parseSlot k v with
    | Some ing => ing :: omap (fun kv => parseSlot kv.1 kv.2) es
    | None => omap (fun kv => parseSlot kv.1 kv.2) es
    end.
Proof. done. Qed.

(** X1. An entry whose key is neither a slot of the grid nor [count] has no
    part in the result: the recipe parses as it does without the entry,
    whatever the entry holds and wherever it stands. *)
Theorem parseRecipeSlots_skips_other_keys (k : string) (v : value)
    (pre post : list (string * value)) :
  k ∉ slotKeys -> k <> "count" ->
  parseRecipeSlots (VObject (pre ++ (k, v) :: post))
  = parseRecipeSlots (VObject (pre ++ post)).
Proof.
  intros Hslot Hcount. unfold parseRecipeSlots. f_equal.
  - cbn [entries]. rewrite !omap_app, slots_cons.
    by rewrite (parseSlot_other_key k v Hslot).
  - unfold outputCountOf. cbn [own]. by rewrite assoc_other_key.
Qed.

Lemma parseRecipeSlots_skips_other_keys_witness :
  ("type" ∉ slotKeys) /\ "type" <> "count"
  /\ parseRecipeSlots
       (VObject [("A1", VString "LOG:2"); ("type", VString "crafting");
                 ("count", VString "4")])
     = parseRecipeSlots
         (VObject [("A1", VString "LOG:2"); ("count", VString "4")]).
Proof.
  assert ("type" ∉ slotKeys) as H1.
  { intros H%is_slot_key_spec. discriminate H. }
  assert ("type" <> "count") as H2 by discriminate.
  refine (conj H1 (conj H2 _)).
  exact (parseRecipeSlots_skips_other_keys "type" (VString "crafting")
           [("A1", VString "LOG:2")] [("count", VString "4")] H1 H2).
Defined.

Lemma slot_entries_bound (es : list (string * value)) :
  NoDup es.*1 ->
  exists ks : list string,
    NoDup ks /\ (forall k, k ∈ ks -> k ∈ slotKeys /\ k ∈ es.*1)
    /\ (length (omap (fun kv => parseSlot kv.1 kv.2) es) <= length ks)%nat.
Proof.
  induction es as [|[k v] es IH]; intros Hnd.
  - exists []. split; [constructor|]. split; [|done].
    intros k Hk. by apply elem_of_nil in Hk.
  - cbn in Hnd. apply NoDup_cons in Hnd as [Hk Hnd].
    destruct (IH Hnd) as (ks & Hks & Hin & Hlen).
    rewrite slots_cons. destruct (parseSlot k v) eqn:Hp.
    + exists (k :: ks). split; [|split].
      * apply NoDup_cons. split; [|done]. intros Hk'. by apply Hin in Hk' as [_ ?].
      * intros k' [->|Hk']%elem_of_cons.
        -- split; [|cbn; apply elem_of_cons; by left].
           destruct (decide (k ∈ slotKeys)) as [|Hno]; [done|].
           by rewrite (parseSlot_other_key k v Hno) in Hp.
        -- destruct (Hin _ Hk'). split; [done|].
           cbn. apply elem_of_cons. by right.
      * cbn. lia.
    + exists ks. split; [done|]. split; [|done].
      intros k' Hk'. destruct (Hin _ Hk'). split; [done|].
      cbn. apply elem_of_cons. by right.
Qed.

(** X2. A recipe never yields more than nine ingredients: each comes from
    an entry keyed by one of the nine slots, and the keys of an object are
    distinct. *)
Theorem at_most_nine_ingredients (recipe : value) :
  NoDup (entries recipe).*1 ->
  (length (ingredients (parseRecipeSlots recipe)) <= 9)%nat.
Proof.
  intros Hnd. cbn [parseRecipeSlots ingredients].
  destruct (slot_entries_bound _ Hnd) as (ks & Hks & Hin & Hlen).
  assert (ks ⊆+ slotKeys) as Hsub.
  { apply NoDup_submseteq; [done|]. intros k Hk. by apply Hin. }
  apply submseteq_length in Hsub. cbn in Hsub. lia.
Qed.

Lemma at_most_nine_ingredients_witness :
  NoDup (entries Sample.pickRecipe).*1
  /\ (length (ingredients (parseRecipeSlots Sample.pickRecipe)) <= 9)%nat.
Proof.
  assert (NoDup (entries Sample.pickRecipe).*1) as H.
  { apply (bool_decide_unpack _). by vm_compute. }
  exact (conj H (at_most_nine_ingredients Sample.pickRecipe H)).
Defined.

(** [trim] leaves a trimmed string as it is. *)
Lemma trim_end_head (c : ascii) (s : string) :
  is_ws c = false -> exists t, trim_end (String c s) = String c t.
Proof.
  intros Hc. cbn [trim_end]. destruct (trim_end s); rewrite ?Hc; eauto.
Qed.

Lemma trim_end_cons (c : ascii) (s : string) :
  trim_end (String c s)
  = match trim_end s with
    | EmptyString => if is_ws c then EmptyString else String c EmptyString
    | t => String c t
    end.
Proof. done. Qed.

Lemma trim_end_idem (s : string) : trim_end (trim_end s) = trim_end s.
Proof.
  induction s as [|c s IH]; [done|]. cbn [trim_end].
  destruct (trim_end s) as [|c' t] eqn:Ht.
  - destruct (is_ws c) eqn:Hc; [done|]. cbn. by rewrite Hc.
  - by rewrite (trim_end_cons c (String c' t)), IH.
Qed.

Lemma trim_start_head (s : string) :
  match trim_start s with
  | EmptyString => True
  | String c _ => is_ws c = false
  end.
Proof.
  induction s as [|c s IH]; [done|]. cbn [trim_start].
  destruct (is_ws c) eqn:Hc; [done|]. done.
Qed.

Lemma trim_idem (s : string) : trim (trim s) = trim s.
Proof.
  unfold trim. pose proof (trim_start_head s) as Hs.
  destruct (trim_start s) as [|c s'] eqn:Hst; [done|].
  destruct (trim_end_head c s' Hs) as [t Ht]. rewrite Ht.
  cbn [trim_start]. rewrite Hs, <- Ht. apply trim_end_idem.
Qed.

Lemma toNumber_orOne_VInt (n : Z) :
  toNumber (orOne (VInt n)) = Done (inject_Z (if Z.eqb n 0 then 1 else n)).
Proof.
  unfold orOne, VInt. cbn [truthy].
  destruct (Z.eqb_spec n 0) as [->|Hn]; [done|].
  assert (Qeq_bool (inject_Z n) 0 = false) as ->; [|done].
  apply not_true_is_false. intros H%Qeq_bool_iff.
  unfold Qeq, inject_Z in H. cbn in H. lia.
Qed.

Lemma plain_ingredient_shape (recipe : value) (ing : ingredient) :
  plainRecipe recipe ->
  ing ∈ ingredients (parseRecipeSlots recipe) ->
  exists id n,
    ing = Ingredient (VString id) (VInt n) /\ id <> "" /\ trim id = id.
Proof.
  intros Hplain Hin. cbn [parseRecipeSlots ingredients] in Hin.
  apply list_elem_of_omap in Hin as ([k v] & Hkv & Hp). cbn [fst snd] in Hp.
  assert (is_slot_key k = true /\ truthy v = true) as [Hk Hv].
  { unfold parseSlot in Hp.
    destruct (is_slot_key k); [|done]. by destruct (truthy v). }
  destruct (Hplain k v Hkv Hk Hv) as [s ->].
  apply parseSlot_string in Hp as (id & n & -> & Hid & Hne & _).
  exists id, n. split; [done|]. split; [done|].
  rewrite Hid. apply trim_idem.
Qed.

(** X3. In a recipe whose filled slots are all strings, every ingredient
    has a non-empty id without white space around it and an integer count,
    and the count the cost loops multiply by is never zero. *)
Theorem plain_recipe_ingredients (recipe : value) (ing : ingredient) :
  plainRecipe recipe ->
  ing ∈ ingredients (parseRecipeSlots recipe) ->
  exists id n c,
    ing = Ingredient (VString id) (VInt n)
    /\ id <> "" /\ trim id = id
    /\ toNumber (orOne (count ing)) = Done (inject_Z c)
    /\ c <> 0 /\ (n <> 0 -> c = n).
Proof.
  intros Hplain Hin.
  destruct (plain_ingredient_shape recipe ing Hplain Hin)
    as (id & n & -> & Hne & Htrim).
  exists id, n, (if Z.eqb n 0 then 1 else n).
  split; [done|]. split; [done|]. split; [done|].
  cbn [count]. split; [apply toNumber_orOne_VInt|].
  destruct (Z.eqb_spec n 0); split; (done || lia).
Qed.

Lemma pickRecipe_plain : plainRecipe Sample.pickRecipe.
Proof.
  intros k v Hin _ _. cbn in Hin.
  repeat (apply elem_of_cons in Hin as [[= -> ->]|Hin]; [by eexists|]).
  by apply elem_of_nil in Hin.
Qed.

Lemma plain_recipe_ingredients_witness :
  plainRecipe Sample.pickRecipe
  /\ Ingredient (VString "COBBLESTONE") (VInt 2)
     ∈ ingredients (parseRecipeSlots Sample.pickRecipe)
  /\ exists id n c,
       Ingredient (VString "COBBLESTONE") (VInt 2)
       = Ingredient (VString id) (VInt n)
       /\ id <> "" /\ trim id = id
       /\ toNumber (orOne (count (Ingredient (VString "COBBLESTONE") (VInt 2))))
          = Done (inject_Z c)
       /\ c <> 0 /\ (n <> 0 -> c = n).
Proof.
  assert (Ingredient (VString "COBBLESTONE") (VInt 2)
          ∈ ingredients (parseRecipeSlots Sample.pickRecipe)) as H.
  { vm_compute. apply elem_of_cons. by left. }
  refine (conj pickRecipe_plain (conj H _)).
  exact (plain_recipe_ingredients Sample.pickRecipe _ pickRecipe_plain H).
Defined.

(** ** More on the auction-low fetch and the recipe cache *)

Section Fetches.

Context (E : env).

Lemma lowestBin_null (arr : list value) (acc : option Q) :
  VNull ∈ arr -> lowestBin arr acc = None.
Proof.
  revert acc. induction arr as [|a arr IH]; intros acc H.
  - by apply elem_of_nil in H.
  - apply elem_of_cons in H as [<-|H]; [done|].
    destruct a; cbn [lowestBin]; auto.
Qed.

(** X4. One [null] among the listings voids the whole fetch: reading a
    property of it throws, the exception is caught, and [fetchLBIN] returns
    null without writing the price store or the cache, whatever the other
    listings offer. *)
Theorem null_listing_voids_the_fetch (name : string) (w : world)
    (arr : list value) :
  body (auctions E name (clock w)) = Some (VArray arr) ->
  VNull ∈ arr ->
  exists w1,
    fetchLBIN E name w = (None, w1)
    /\ prices w1 = prices w /\ lbinCache w1 = lbinCache w
    /\ calls w1 = (calls w ++ [AuctionCall name])%list.
Proof.
  intros Hbody Hnull. unfold fetchLBIN, fetch. rewrite Hbody.
  destruct arr as [|a arr]; [by apply elem_of_nil in Hnull|].
  rewrite (lowestBin_null _ None Hnull). by eexists.
Qed.

(** X5. [fetchLBIN] calls the provider once and writes nothing but the
    item's own price row and cache entry: the rows and entries of all other
    items, the recipes, the margins and the bazaar snapshot are as before.
    When it returns null it writes nothing at all; when it returns a price,
    the cache holds that price and the store its rounding, source lbin and
    layers 0, both stamped with the time of the write. *)
Theorem fetchLBIN_writes_its_own_key (name : string) (w : world)
    (res : option Q) (w1 : world) :
  fetchLBIN E name w = (res, w1) ->
  recipes w1 = recipes w /\ craft_margins w1 = craft_margins w
  /\ bazaarPrices w1 = bazaarPrices w
  /\ calls w1 = (calls w ++ [AuctionCall name])%list
  /\ (forall k, k <> name ->
        prices w1 !! k = prices w !! k /\ lbinCache w1 !! k = lbinCache w !! k)
  /\ (res = None -> prices w1 = prices w /\ lbinCache w1 = lbinCache w)
  /\ (forall min, res = Some min ->
        prices w1 !! name = Some (PriceRow (Some (round min)) "lbin" 0 (nowTs w1))
        /\ lbinCache w1 !! name = Some (Lbin min (nowTs w1))).
Proof.
  intros H. apply fetchLBIN_inv in H.
  destruct H as [(a & arr & min & _ & _ & -> & ->)|[-> ->]]; cbn.
  - repeat split; try done.
    + by rewrite lookup_insert_ne.
    + by rewrite lookup_insert_ne.
    + injection H as <-. by rewrite lookup_insert_eq.
    + injection H as <-. by rewrite lookup_insert_eq.
  - repeat split; done.
Qed.

(** X6. The recipe store is read before the provider and never expires.
    Once [getRecipeCached] has left a row for the item, a later call returns
    the same recipe from any world that holds that row, at any time, without
    a provider call and without a write.  When it leaves no row, the
    provider gave no usable answer: the result is null, no recipe was
    written, and the next call asks the provider again. *)
Theorem recipe_cache_round_trip (name : string) (w : world) (r : value)
    (w1 : world) :
  getRecipeCached E name w = (r, w1) ->
  (forall k, k <> name -> recipes w1 !! k = recipes w !! k)
  /\ (is_Some (recipes w1 !! name) ->
      forall w2,
        recipes w2 !! name = recipes w1 !! name ->
        getRecipeCached E name w2 = (r, w2))
  /\ (recipes w1 !! name = None ->
      r = VNull /\ recipes w1 = recipes w
      /\ calls w1 = (calls w ++ [RecipeCall name])%list
      /\ getRecipeCached E name w1 = fetchAndStoreRecipe E name w1).
Proof.
  unfold getRecipeCached at 1. unfold fetchAndStoreRecipe, fetch.
  destruct (recipes w !! name) as [row|] eqn:Hrow.
  { intros [= <- <-]. split; [done|]. split.
    - intros _ w2 H2. unfold getRecipeCached. by rewrite H2, Hrow.
    - by rewrite Hrow. }
  destruct (body (recipeApi E name (clock w))) as [j|] eqn:Hbody;
    intros [= <- <-]; cbn.
  - split; [intros k Hk; by rewrite lookup_insert_ne|]. split.
    + intros _ w2 H2. unfold getRecipeCached. rewrite H2.
      by rewrite lookup_insert_eq.
    + by rewrite lookup_insert_eq.
  - split; [done|]. split.
    + rewrite Hrow. by intros [? ?].
    + intros _. repeat split. unfold getRecipeCached. cbn. by rewrite Hrow.
Qed.

End Fetches.

Lemma null_listing_voids_the_fetch_witness :
  exists w1,
    fetchLBIN envNullListing "DIAMOND" Sample.emptyWorld = (None, w1)
    /\ prices w1 = prices Sample.emptyWorld
    /\ lbinCache w1 = lbinCache Sample.emptyWorld
    /\ calls w1 = (calls Sample.emptyWorld ++ [AuctionCall "DIAMOND"])%list.
Proof.
  refine (null_listing_voids_the_fetch envNullListing "DIAMOND"
            Sample.emptyWorld _ eq_refl _).
  vm_compute. apply elem_of_cons. right. apply elem_of_cons. by left.
Defined.

Lemma fetchLBIN_writes_its_own_key_witness :
  exists w1,
    fetchLBIN Scenario.envAuction "DIAMOND" Sample.emptyWorld
    = (Some (6002 # 5)%Q, w1)
    /\ prices w1 !! "DIAMOND" = Some (PriceRow (Some 1200) "lbin" 0 100005)
    /\ lbinCache w1 !! "DIAMOND" = Some (Lbin (6002 # 5) 100005)
    /\ forall k, k <> "DIAMOND" ->
         prices w1 !! k = prices Sample.emptyWorld !! k
         /\ lbinCache w1 !! k = lbinCache Sample.emptyWorld !! k.
Proof.
  assert (exists w1,
            fetchLBIN Scenario.envAuction "DIAMOND" Sample.emptyWorld
            = (Some (6002 # 5)%Q, w1) /\ nowTs w1 = 100005)
    as (w1 & Hrun & Hnow).
  { vm_compute. by eexists. }
  exists w1.
  destruct (fetchLBIN_writes_its_own_key Scenario.envAuction "DIAMOND"
              Sample.emptyWorld _ w1 Hrun)
    as (_ & _ & _ & _ & Hother & _ & Hsome).
  destruct (Hsome _ eq_refl) as [Hp Hl]. rewrite Hnow in Hp, Hl.
  exact (conj Hrun (conj Hp (conj Hl Hother))).
Defined.

Lemma recipe_cache_round_trip_witness :
  exists w1,
    getRecipeCached Sample.env0 "PICK" Sample.emptyWorld
    = (Sample.pickRecipe, w1)
    /\ getRecipeCached Sample.env0 "PICK" w1 = (Sample.pickRecipe, w1).
Proof.
  assert (exists w1,
            getRecipeCached Sample.env0 "PICK" Sample.emptyWorld
            = (Sample.pickRecipe, w1) /\ is_Some (recipes w1 !! "PICK"))
    as (w1 & Hrun & Hrow).
  { vm_compute. eexists. split; [reflexivity|]. by eexists. }
  exists w1. split; [done|].
  destruct (recipe_cache_round_trip Sample.env0 "PICK" Sample.emptyWorld
              _ w1 Hrun) as (_ & Hhit & _).
  exact (Hhit Hrow w1 eq_refl).
Defined.

(** ** Invariants of a resolution, in general *)

Section Keeping.

Context (E : env) (I : gset string -> world -> Prop) (Good : priced -> Prop).
Hypothesis HI : Invariant E I Good.

Lemma fetchLBIN_keeps name v w l w1 :
  I v w -> fetchLBIN E name w = (l, w1) -> I v w1.
Proof.
  destruct HI as [_ Hcall Hlbin _ Hprice _ Hbase _].
  intros Hi H.
  apply fetchLBIN_inv in H as [(a & arr & min & _ & _ & -> & ->)|[-> ->]].
  - apply Hprice; [by apply Hlbin, Hcall|]. apply Hbase. auto.
  - by apply Hcall.
Qed.

Lemma getRecipeCached_keeps name v w recipe w1 :
  I v w -> getRecipeCached E name w = (recipe, w1) -> I v w1.
Proof.
  destruct HI as [_ Hcall _ Hrecipe _ _ _ _].
  intros Hi. unfold getRecipeCached, fetchAndStoreRecipe.
  destruct (recipes w !! name) as [row|] eqn:Hrow; [by intros [= <- <-]|].
  change (fetch (recipeApi E) (RecipeCall name) name w)
    with (body (recipeApi E name (clock w)),
          afterCall (recipeApi E) (RecipeCall name) name w).
  destruct (body (recipeApi E name (clock w))) as [j|] eqn:Hbody;
    intros [= <- <-].
  - eapply Hrecipe; [by apply Hcall|done|done].
  - by apply Hcall.
Qed.

Lemma AllPriced_keeps resolve ings v w es v' w' :
  Keeps I Good resolve ->
  I v w ->
  AllPriced resolve ings v w es v' w' ->
  I v' w'
  /\ forall b, b ∈ es ->
       Good (Priced (Some (b_unitPrice b)) (b_source b) (b_layers b)).
Proof.
  intros Hk Hi H.
  induction H as [|ing rest v w name sub v1 w1 unit c es v2 w2
                   Hup Hres Hp Hc _ IH].
  - split; [done|]. intros b Hb. by apply elem_of_nil in Hb.
  - destruct (Hk _ _ _ _ _ _ Hi Hres) as [Hi1 Hgood].
    destruct (IH Hi1) as [Hi2 Hes]. split; [done|].
    intros b [->|Hb]%elem_of_cons; [|by apply Hes].
    cbn. specialize (Hgood _ eq_refl).
    destruct sub as [pp ss ll]. cbn in Hp |- *. by subst pp.
Qed.

Lemma CraftFailed_keeps resolve recipe v w v' w' :
  Keeps I Good resolve ->
  I v w ->
  CraftFailed resolve recipe v w v' w' -> I v' w'.
Proof.
  intros Hk Hi [(_ & -> & ->)|(_ & _ & H)]; [done|].
  apply craftLoop_inv in H
    as [(? & _ & [=])|(pre & ing & post & es & v1 & w1 & _ & Hall & Hun & _)].
  destruct (AllPriced_keeps _ _ _ _ _ _ _ Hk Hi Hall) as [Hi1 _].
  destruct Hun as (name & sub & _ & Hres & _).
  by destruct (Hk _ _ _ _ _ _ Hi1 Hres).
Qed.

Lemma freshRow_Some now pr row :
  freshRow now pr = Some row ->
  pr = Some row /\ now - updatedAt row < PRICE_CACHE_TTL.
Proof.
  unfold freshRow. destruct pr as [row'|]; [|done].
  destruct (Z.ltb_spec (now - updatedAt row') PRICE_CACHE_TTL); [|done].
  by intros [= <-].
Qed.

Lemma Sourced_keeps resolve name now v w r v' w' :
  Keeps I Good resolve ->
  I v w ->
  Sourced E resolve name now v w r v' w' ->
  I v' w' /\ forall p, r = Some p -> Good p.
Proof.
  intros Hk Hi H.
  pose proof HI as [_ _ _ _ Hprice Hrow Hbase Hcraft].
  destruct H as [row H1|b H1 H2|e H1 H2 H3|l w1 Hno H4
      |w1 recipe w2 total ml v3 w3 Hno H4 H5 H6 H7 H8
      |w1 recipe w2 v3 w3 e Hno H4 H5 Hf H6
      |w1 recipe w2 v3 w3 Hno H4 H5 Hf H6].
  - split; [done|]. intros p [= <-].
    apply freshRow_Some in H1 as [H1 _]. by eapply Hrow.
  - assert (Good (Priced (Some (round b)) "bazaar" 0)) by (apply Hbase; auto).
    split; [by apply Hprice|]. by intros p [= <-].
  - assert (Good (Priced (Some (round (lbin_price e))) "lbin" 0))
      by (apply Hbase; auto).
    split; [by apply Hprice|]. by intros p [= <-].
  - split; [by eapply fetchLBIN_keeps|]. intros p [= <-]. apply Hbase. auto.
  - pose proof (fetchLBIN_keeps _ _ _ _ _ Hi H4) as Hi1.
    pose proof (getRecipeCached_keeps _ _ _ _ _ Hi1 H5) as Hi2.
    apply craftLoop_inv in H8
      as [(es & Hall & [= -> ->])|(? & ? & ? & ? & ? & ? & _ & _ & _ & [=])].
    destruct (AllPriced_keeps _ _ _ _ _ _ _ Hk Hi2 Hall) as [Hi3 Hes].
    assert (es <> []) as Hne.
    { apply AllPriced_length in Hall. intros ->.
      by destruct (ingredients (parseRecipeSlots recipe)). }
    assert (forall p, Good (Priced (Some p) "craft" (fold_left craftLayerStep es 0)))
      as Hgood by (intros p; by apply Hcraft).
    split; [by apply Hprice|]. by intros p [= <-].
  - pose proof (fetchLBIN_keeps _ _ _ _ _ Hi H4) as Hi1.
    pose proof (getRecipeCached_keeps _ _ _ _ _ Hi1 H5) as Hi2.
    pose proof (CraftFailed_keeps _ _ _ _ _ _ Hk Hi2 Hf) as Hi3.
    assert (Good (Priced (Some (round e)) "easy" 0)) by (apply Hbase; auto).
    split; [by apply Hprice|]. by intros p [= <-].
  - pose proof (fetchLBIN_keeps _ _ _ _ _ Hi H4) as Hi1.
    pose proof (getRecipeCached_keeps _ _ _ _ _ Hi1 H5) as Hi2.
    pose proof (CraftFailed_keeps _ _ _ _ _ _ Hk Hi2 Hf) as Hi3.
    split; [done|]. by intros p [=].
Qed.

Lemma getItemPrice_keeps (fuel : nat) : Keeps I Good (getItemPrice E fuel).
Proof.
  induction fuel as [|fuel IH]; intros itemName v w r v' w' Hi H; [done|].
  apply getItemPrice_Resolved_1 in H.
  destruct H as [_|_ _|r v' w' _ _ H]; [by split..|].
  eapply Sourced_keeps; [exact IH| |exact H].
  destruct HI as [Hvisit _ _ _ _ _ _ _]. by apply Hvisit.
Qed.

End Keeping.

(** *** What a resolution leaves in place *)

Lemma Grows_refl (w : world) : Grows w w.
Proof. by repeat split. Qed.

Lemma grows_invariant (E : env) (v0 : gset string) (w0 : world) :
  Invariant E (growsFrom v0 w0) (fun _ => True).
Proof.
  split; try done.
  - intros n v w [Hv Hg]. split; [set_solver|done].
  - intros api call n v w [Hv (H1 & H2 & H3 & H4 & H5 & H6)].
    split; [done|]. repeat split; try done.
    cbn. by apply prefix_app_r.
  - intros n e v w [Hv (H1 & H2 & H3 & H4 & H5 & H6)].
    split; [done|]. repeat split; try done.
    intros k Hk. cbn. apply lookup_insert_is_Some.
    destruct (decide (n = k)); [by left|right; auto].
  - intros n j t t0 v w [Hv (H1 & H2 & H3 & H4 & H5 & H6)] Hnone _.
    split; [done|]. repeat split; try done.
    intros k row Hk. cbn. apply H1 in Hk.
    rewrite lookup_insert_ne; [done|]. intros ->. congruence.
  - intros n p src lay t v w [Hv (H1 & H2 & H3 & H4 & H5 & H6)] _.
    split; [done|]. repeat split; try done.
    intros k Hk. cbn. apply lookup_insert_is_Some.
    destruct (decide (n = k)); [by left|right; auto].
Qed.

Section Frames.

Context (E : env).

(** X7. A resolution only adds.  The visited set grows and holds the
    upper-cased name of a non-empty argument; no recipe row is changed or
    removed (the provider is asked only for an item without a row), no price
    row and no auction low is removed, the trace of provider calls is
    extended at its end, and the margin table and the bazaar snapshot are
    not touched. *)
Theorem resolution_only_adds (fuel : nat) (itemName : string)
    (visited : gset string) (w : world) (r : option priced)
    (visited' : gset string) (w' : world) :
  getItemPrice E fuel itemName visited w = Done (r, visited', w') ->
  visited ⊆ visited'
  /\ (itemName <> "" -> toUpperCase itemName ∈ visited')
  /\ Grows w w'.
Proof.
  destruct fuel as [|fuel]; [done|]. intros H.
  apply getItemPrice_Resolved_1 in H.
  destruct H as [->|_ Hin|r v' w' _ _ H].
  - split; [done|]. split; [done|]. apply Grows_refl.
  - split; [done|]. split; [done|]. apply Grows_refl.
  - set (name := toUpperCase itemName) in *.
    destruct (Sourced_keeps E _ _ (grows_invariant E ({[name]} ∪ visited) w)
                (getItemPrice E fuel) name (nowTs w) ({[name]} ∪ visited) w
                r v' w')
      as [[Hv Hg] _].
    + apply getItemPrice_keeps, grows_invariant.
    + split; [done|apply Grows_refl].
    + done.
    + split; [set_solver|]. split; [set_solver|done].
Qed.

Lemma layered_invariant : Invariant E (fun _ w => layeredStore w) layered.
Proof.
  split; try done.
  - intros n p src lay t v w Hw Hgood k row. cbn.
    destruct (decide (n = k)) as [->|Hne].
    + rewrite lookup_insert_eq. by intros [= <-].
    + rewrite lookup_insert_ne by done. apply Hw.
  - intros n row v w Hw Hrow. by eapply Hw.
  - intros p src Hsrc. right. by split.
  - intros es p Hne Hes. left. split; [done|]. cbn.
    destruct (craftLayerStep_fold es 0) as (_ & Hall & _).
    destruct es as [|b es]; [done|].
    assert (b ∈ b :: es) as Hb by (apply elem_of_cons; by left).
    specialize (Hall b Hb). destruct (Hes b Hb) as [[_ H]|[_ H]];
      cbn in H; lia.
Qed.

(** X8. Source and layers stay in step, as the comments of the table
    [prices] describe them.  If every stored row has either source craft with
    at least one layer or one of the sources bazaar, lbin, easy with layers
    0, then so has every row after a resolution, and so has its result. *)
Theorem layers_fit_the_source (fuel : nat) (itemName : string)
    (visited : gset string) (w : world) (r : option priced)
    (visited' : gset string) (w' : world) :
  layeredStore w ->
  getItemPrice E fuel itemName visited w = Done (r, visited', w') ->
  layeredStore w' /\ forall p, r = Some p -> layered p.
Proof.
  intros Hw H.
  exact (getItemPrice_keeps E _ _ layered_invariant fuel itemName visited w
           r visited' w' Hw H).
Qed.

Lemma Sourced_row resolve name now v w p v' w' :
  Sourced E resolve name now v w (Some p) v' w' ->
  exists t,
    prices w' !! name = Some (PriceRow (p_price p) (p_source p) (p_layers p) t).
Proof.
  intros H. inversion H as [row H1|b H1 H2|e H1 H2 H3|l w1 Hno H4
      |w1 recipe w2 total ml v3 w3 Hno H4 H5 H6 H7 H8
      |w1 recipe w2 v3 w3 e Hno H4 H5 Hf H6
      |]; subst; cbn.
  - apply freshRow_Some in H1 as [H1 _]. exists (updatedAt row).
    rewrite H1. by destruct row.
  - eexists. by rewrite lookup_insert_eq.
  - eexists. by rewrite lookup_insert_eq.
  - apply fetchLBIN_inv in H4
      as [(a & arr & min & _ & _ & [= ->] & ->)|[[=] _]].
    eexists. cbn. by rewrite lookup_insert_eq.
  - eexists. by rewrite lookup_insert_eq.
  - eexists. by rewrite lookup_insert_eq.
Qed.

Lemma getItemPrice_row fuel itemName visited w p visited' w' :
  getItemPrice E fuel itemName visited w = Done (Some p, visited', w') ->
  itemName <> ""
  /\ exists t,
       prices w' !! toUpperCase itemName
       = Some (PriceRow (p_price p) (p_source p) (p_layers p) t).
Proof.
  destruct fuel as [|fuel]; [done|]. intros H.
  apply getItemPrice_Resolved_1 in H.
  inversion H as [| |r v' w'' Hne _ Hs]; subst.
  split; [done|]. by eapply Sourced_row.
Qed.

(** X9. What a resolution returns is what the price store then holds: when
    [getItemPrice] yields a price, the row of the upper-cased item carries
    that price, source and layers, whichever of the six sources it came
    from. *)
Theorem resolved_price_is_stored (fuel : nat) (itemName : string)
    (visited : gset string) (w : world) (p : priced)
    (visited' : gset string) (w' : world) :
  getItemPrice E fuel itemName visited w = Done (Some p, visited', w') ->
  exists t,
    prices w' !! toUpperCase itemName
    = Some (PriceRow (p_price p) (p_source p) (p_layers p) t).
Proof. intros H. by apply getItemPrice_row in H as [_ H]. Qed.

(** X10. Asking again gives the same answer.  After a resolution that
    yielded a price, a new call for the item, made while the row it left is
    younger than the TTL, returns the same price, source and layers and
    neither writes nor calls a provider. *)
Theorem repeated_resolution_is_stable (fuel fuel' : nat) (itemName : string)
    (visited : gset string) (w : world) (p : priced)
    (visited' : gset string) (w' : world) (again : gset string) :
  getItemPrice E fuel itemName visited w = Done (Some p, visited', w') ->
  (forall row,
     prices w' !! toUpperCase itemName = Some row ->
     nowTs w' - updatedAt row < PRICE_CACHE_TTL) ->
  toUpperCase itemName ∉ again ->
  getItemPrice E (S fuel') itemName again w'
  = Done (Some p, {[toUpperCase itemName]} ∪ again, w').
Proof.
  intros H Hfresh Hagain. apply getItemPrice_row in H as [Hne [t Hrow]].
  rewrite (fresh_row_hit E fuel' itemName again w' _ Hne Hagain Hrow).
  - by destruct p.
  - by apply Hfresh.
Qed.

(** X11. The per-item route shows what was resolved: after a resolution
    that yielded a price, [GET /item-price/:item] answers 200 with a
    [priceRow] that carries this price, source and layers. *)
Theorem route_shows_resolved_price (fuel : nat) (itemName : string)
    (visited : gset string) (w : world) (p : priced)
    (visited' : gset string) (w' : world) :
  getItemPrice E fuel itemName visited w = Done (Some p, visited', w') ->
  exists body t,
    itemPriceRoute itemName w' = Json 200 body
    /\ own body "priceRow"
       = Some (priceRowJson
                 (PriceRow (p_price p) (p_source p) (p_layers p) t)).
Proof.
  intros H. apply getItemPrice_row in H as [_ [t Hrow]].
  unfold itemPriceRoute. rewrite Hrow. eexists _, t. split; [done|].
  by destruct (craft_margins w' !! toUpperCase itemName).
Qed.

End Frames.

Lemma pick_resolution :
  exists visited' w',
    getItemPrice Sample.env0 2 "pick" ∅ Sample.world0
    = Done (Some (Priced (Some 25) "craft" 1), visited', w')
    /\ forall row,
         prices w' !! toUpperCase "pick" = Some row ->
         nowTs w' - updatedAt row < PRICE_CACHE_TTL.
Proof.
  pose (o := getItemPrice Sample.env0 2 "pick" ∅ Sample.world0).
  exists (match o with
          | Done (_, v, _) => v
          | Raise _ => ∅
          end),
         (match o with
          | Done (_, _, w1) => w1
          | Raise _ => Sample.world0
          end).
  split; [vm_compute; reflexivity|].
  set (w' := match o with Done (_, _, w1) => w1 | Raise _ => Sample.world0 end).
  assert (prices w' !! toUpperCase "pick"
          = Some (PriceRow (Some 25) "craft" 1 100000)) as Hrow
    by (vm_compute; reflexivity).
  assert (nowTs w' - 100000 < PRICE_CACHE_TTL) as Hage
    by (vm_compute; reflexivity).
  clearbody w'. clear o. intros row Hrow'. rewrite Hrow in Hrow'.
  by injection Hrow' as <-.
Qed.

Lemma resolution_only_adds_witness :
  exists visited' w',
    getItemPrice Sample.env0 2 "pick" ∅ Sample.world0
    = Done (Some (Priced (Some 25) "craft" 1), visited', w')
    /\ toUpperCase "pick" ∈ visited' /\ Grows Sample.world0 w'.
Proof.
  destruct pick_resolution as (visited' & w' & Hrun & _).
  exists visited', w'.
  destruct (resolution_only_adds Sample.env0 2 "pick" ∅ Sample.world0 _
              visited' w' Hrun) as (_ & Hin & Hgrows).
  refine (conj Hrun (conj (Hin _) Hgrows)). discriminate.
Defined.

Lemma world0_layered : layeredStore Sample.world0.
Proof. intros n row H. cbn in H. by rewrite lookup_empty in H. Qed.

Lemma layers_fit_the_source_witness :
  layeredStore Sample.world0
  /\ exists visited' w',
       getItemPrice Sample.env0 2 "pick" ∅ Sample.world0
       = Done (Some (Priced (Some 25) "craft" 1), visited', w')
       /\ layeredStore w' /\ layered (Priced (Some 25) "craft" 1).
Proof.
  split; [exact world0_layered|].
  destruct pick_resolution as (visited' & w' & Hrun & _).
  exists visited', w'.
  destruct (layers_fit_the_source Sample.env0 2 "pick" ∅ Sample.world0 _
              visited' w' world0_layered Hrun) as [Hstore Hres].
  exact (conj Hrun (conj Hstore (Hres _ eq_refl))).
Defined.

Lemma resolved_price_is_stored_witness :
  exists visited' w' t,
    getItemPrice Sample.env0 2 "pick" ∅ Sample.world0
    = Done (Some (Priced (Some 25) "craft" 1), visited', w')
    /\ prices w' !! "PICK" = Some (PriceRow (Some 25) "craft" 1 t).
Proof.
  destruct pick_resolution as (visited' & w' & Hrun & _).
  destruct (resolved_price_is_stored Sample.env0 2 "pick" ∅ Sample.world0 _
              visited' w' Hrun) as [t Hrow].
  by exists visited', w', t.
Defined.

Lemma repeated_resolution_is_stable_witness :
  exists visited' w',
    getItemPrice Sample.env0 2 "pick" ∅ Sample.world0
    = Done (Some (Priced (Some 25) "craft" 1), visited', w')
    /\ getItemPrice Sample.env0 1 "pick" ∅ w'
       = Done (Some (Priced (Some 25) "craft" 1),
               {[toUpperCase "pick"]} ∪ ∅, w').
Proof.
  destruct pick_resolution as (visited' & w' & Hrun & Hfresh).
  exists visited', w'. split; [done|].
  exact (repeated_resolution_is_stable Sample.env0 2 0 "pick" ∅ Sample.world0
           _ visited' w' ∅ Hrun Hfresh (not_elem_of_empty _)).
Defined.

Lemma route_shows_resolved_price_witness :
  exists visited' w' body t,
    getItemPrice Sample.env0 2 "pick" ∅ Sample.world0
    = Done (Some (Priced (Some 25) "craft" 1), visited', w')
    /\ itemPriceRoute "pick" w' = Json 200 body
    /\ own body "priceRow"
       = Some (priceRowJson (PriceRow (Some 25) "craft" 1 t)).
Proof.
  destruct pick_resolution as (visited' & w' & Hrun & _).
  destruct (route_shows_resolved_price Sample.env0 2 "pick" ∅ Sample.world0 _
              visited' w' Hrun) as (body & t & Hroute & Hrow).
  by exists visited', w', body, t.
Defined.

(** ** No exception on plain recipes *)

Section Quiet.

Context (E : env).

Lemma plain_invariant :
  Invariant E (fun _ w => plainBook E w) (fun _ => True).
Proof.
  split; try done.
  intros n j t t0 v w [H1 H2] Hnone Hbody. split; [|done].
  intros k row. cbn. destruct (decide (n = k)) as [->|Hne].
  - rewrite lookup_insert_eq. intros [= <-]. by eapply H2.
  - rewrite lookup_insert_ne by done. apply H1.
Qed.

Lemma getRecipeCached_plain name w recipe w1 :
  plainBook E w ->
  getRecipeCached E name w = (recipe, w1) ->
  plainRecipe recipe /\ plainBook E w1.
Proof.
  intros Hw H. split.
  - revert H. unfold getRecipeCached, fetchAndStoreRecipe, fetch.
    destruct Hw as [H1 H2].
    destruct (recipes w !! name) as [row|] eqn:Hrow.
    { intros [= <- <-]. by eapply H1. }
    destruct (body (recipeApi E name (clock w))) as [j|] eqn:Hbody;
      intros [= <- <-].
    + by eapply H2.
    + intros k v Hin. by apply elem_of_nil in Hin.
  - exact (getRecipeCached_keeps E _ _ plain_invariant name ∅ w recipe w1 Hw H).
Qed.

Lemma fetchLBIN_plain name w l w1 :
  plainBook E w -> fetchLBIN E name w = (l, w1) -> plainBook E w1.
Proof. apply (fetchLBIN_keeps E _ _ plain_invariant name ∅). Qed.

Lemma getItemPrice_plain fuel name v w r v' w' :
  plainBook E w ->
  getItemPrice E fuel name v w = Done (r, v', w') -> plainBook E w'.
Proof.
  intros Hw H.
  by destruct (getItemPrice_keeps E _ _ plain_invariant fuel name v w r v' w'
                 Hw H).
Qed.

Lemma plain_ingredients (recipe : value) (ing : ingredient) :
  plainRecipe recipe ->
  ing ∈ ingredients (parseRecipeSlots recipe) -> plainIngredient ing.
Proof.
  intros Hp Hin.
  destruct (plain_ingredient_shape recipe ing Hp Hin)
    as (id & n & -> & _ & _).
  split; [by eexists|]. eexists. apply toNumber_orOne_VInt.
Qed.

Lemma craftLoop_quiet fuel ings total maxLayer visited w :
  (forall x v w0, plainBook E w0 -> quiet (getItemPrice E fuel x v w0)) ->
  (forall ing, ing ∈ ings -> plainIngredient ing) ->
  plainBook E w ->
  quiet (craftLoop (getItemPrice E fuel) ings total maxLayer visited w).
Proof.
  intros IH. revert total maxLayer visited w.
  induction ings as [|ing rest IHl]; intros total maxLayer visited w Hin Hw;
    [done|].
  cbn [craftLoop].
  destruct (Hin ing) as [[id Hid] [c Hc]]; [apply elem_of_cons; by left|].
  rewrite Hid. cbn [upperOf obind].
  pose proof (IH (toUpperCase id) visited w Hw) as Hcall.
  destruct (getItemPrice E fuel (toUpperCase id) visited w)
    as [[[sub v1] w1]|e] eqn:Hres; cbn [obind]; [|done].
  apply getItemPrice_plain in Hres; [|done].
  destruct sub as [[[subPrice|] src lay]|]; [|done..].
  rewrite Hc. cbn [obind]. apply IHl; [|done].
  intros ing' Hin'. apply Hin. apply elem_of_cons. by right.
Qed.

Lemma getItemPrice_quiet fuel itemName visited w :
  plainBook E w -> quiet (getItemPrice E fuel itemName visited w).
Proof.
  revert itemName visited w.
  induction fuel as [|fuel IH]; intros itemName visited w Hw; [done|].
  cbn [getItemPrice].
  destruct (String.eqb itemName ""); [done|].
  destruct (decide (toUpperCase itemName ∈ visited)); [done|].
  set (name := toUpperCase itemName).
  destruct (freshRow _ _); [done|].
  destruct (buyOf _); [done|].
  destruct (freshLbin _ _); [done|].
  destruct (fetchLBIN E name w) as [lbin w1] eqn:H4.
  pose proof (fetchLBIN_plain _ _ _ _ Hw H4) as Hw1.
  destruct lbin; [done|].
  destruct (getRecipeCached E name w1) as [recipe w2] eqn:H5.
  destruct (getRecipeCached_plain _ _ _ _ Hw1 H5) as [Hrec Hw2].
  destruct (truthy recipe); cbn [obind]; [|by destruct (easyItems E !! name)].
  destruct (ingredients (parseRecipeSlots recipe)) as [|ing ings] eqn:Hings;
    cbn [obind]; [by destruct (easyItems E !! name)|].
  pose proof (craftLoop_quiet fuel (ing :: ings) 0 0 ({[name]} ∪ visited) w2 IH)
    as Hloop.
  destruct (craftLoop _ _ _ _ _ _) as [[[[[total maxLayer]|] v3] w3]|e];
    cbn [obind].
  - done.
  - by destruct (easyItems E !! name).
  - apply Hloop; [|done]. intros ing' Hin. eapply plain_ingredients; [done|].
    by rewrite Hings.
Qed.

Lemma marginLoop_quiet fuel ings total breakdown maxLayers w :
  (forall ing, ing ∈ ings -> plainIngredient ing) ->
  plainBook E w ->
  quiet (marginLoop E fuel ings total breakdown maxLayers w).
Proof.
  revert total breakdown maxLayers w.
  induction ings as [|ing rest IHl]; intros total breakdown maxLayers w Hin Hw;
    [done|].
  cbn [marginLoop].
  destruct (Hin ing) as [[id Hid] [c Hc]]; [apply elem_of_cons; by left|].
  rewrite Hid. cbn [upperOf obind].
  pose proof (getItemPrice_quiet fuel (toUpperCase id) ∅ w Hw) as Hcall.
  destruct (getItemPrice E fuel (toUpperCase id) ∅ w)
    as [[[sub v1] w1]|e] eqn:Hres; cbn [obind]; [|done].
  apply getItemPrice_plain in Hres; [|done].
  destruct sub as [[[subPrice|] src lay]|]; [|done..].
  rewrite Hc. cbn [obind]. apply IHl; [|done].
  intros ing' Hin'. apply Hin. apply elem_of_cons. by right.
Qed.

(** X12. No exception on plain recipes.  When every recipe in the store,
    and every recipe the provider may serve, has only strings in its filled
    slots, neither [getItemPrice] nor [computeMarginForItem] throws: there
    is no ingredient whose item is not a string and no count that is not a
    number, so a call ends with a result unless its fuel runs out. *)
Theorem plain_recipes_never_throw (fuel : nat) (itemName : string)
    (visited : gset string) (w : world) :
  plainBook E w ->
  quiet (getItemPrice E fuel itemName visited w)
  /\ quiet (computeMarginForItem E fuel itemName w).
Proof.
  intros Hw. split; [by apply getItemPrice_quiet|].
  unfold computeMarginForItem.
  destruct (bazaarPrices w !! itemName) as [bz|]; [|done].
  destruct (sell bz) as [bzSell|]; [|done].
  destruct (getRecipeCached E itemName w) as [recipe w2] eqn:H5.
  destruct (getRecipeCached_plain _ _ _ _ Hw H5) as [Hrec Hw2].
  destruct (truthy recipe); cbn [negb]; [|done].
  destruct (ingredients (parseRecipeSlots recipe)) as [|ing ings] eqn:Hings;
    [done|].
  pose proof (marginLoop_quiet fuel (ing :: ings) 0 [] 0 w2) as Hloop.
  destruct (marginLoop _ _ _ _ _ _ _) as [[[[[total bd] ml]|] w3]|e];
    cbn [obind]; [done..|].
  apply Hloop; [|done]. intros ing' Hin. eapply plain_ingredients; [done|].
  by rewrite Hings.
Qed.

End Quiet.

Lemma env0_plain : plainBook Sample.env0 Sample.world0.
Proof.
  split.
  - intros n row H. cbn in H. by rewrite lookup_empty in H.
  - intros n t j. cbn. unfold Sample.recipeBook.
    destruct (String.eqb n "PICK"); [|done].
    intros [= <-]. apply pickRecipe_plain.
Qed.

Lemma plain_recipes_never_throw_witness :
  plainBook Sample.env0 Sample.world0
  /\ quiet (getItemPrice Sample.env0 2 "PICK" ∅ Sample.world0)
  /\ quiet (computeMarginForItem Sample.env0 2 "PICK" Sample.world0).
Proof.
  split; [exact env0_plain|].
  exact (plain_recipes_never_throw Sample.env0 2 "PICK" ∅ Sample.world0
           env0_plain).
Defined.

(** ** The breakdown of a margin *)

Section Breakdown.

Context (E : env).

Lemma marginLayerStep_fold entries m0 :
  let m := fold_left marginLayerStep entries m0 in
  m0 <= m
  /\ (forall b, b ∈ entries -> b_layers b <= m)
  /\ (m = m0 \/ exists b, b ∈ entries /\ m = b_layers b).
Proof.
  revert m0. induction entries as [|b entries IH]; intros m0; cbn.
  - split; [lia|]. split; [|by left]. intros b Hb. by apply elem_of_nil in Hb.
  - destruct (IH (marginLayerStep m0 b)) as (H1 & H2 & H3).
    assert (m0 <= marginLayerStep m0 b /\ b_layers b <= marginLayerStep m0 b)
      as [??].
    { unfold marginLayerStep. destruct (Z.ltb_spec m0 (b_layers b)); lia. }
    split; [lia|]. split.
    + intros b' [->|Hb]%elem_of_cons; [lia|by apply H2].
    + destruct H3 as [H3|(b' & Hb' & H3)].
      * assert (marginLayerStep m0 b = m0 \/ marginLayerStep m0 b = b_layers b)
          as [Hs|Hs].
        { unfold marginLayerStep. destruct (m0 <? b_layers b)%Z; auto. }
        -- left. congruence.
        -- right. exists b. split; [apply elem_of_cons; by left|congruence].
      * right. exists b'. split; [apply elem_of_cons; by right|done].
Qed.

Lemma AllPriced_names resolve ings v w es v' w' :
  AllPriced resolve ings v w es v' w' ->
  Forall2 (fun ing b =>
             upperOf (item ing) = Done (b_item b)
             /\ b_count b = orOne (count ing)) ings es.
Proof.
  induction 1; constructor; [by split|done].
Qed.

Lemma freshResolve_keeps fuel :
  Keeps (fun _ w => layeredStore w) layered (freshResolve E fuel).
Proof.
  intros name v w r v' w' Hw H. unfold freshResolve in H.
  exact (getItemPrice_keeps E _ _ (layered_invariant E) fuel name ∅ w r v' w'
           Hw H).
Qed.

(** X13. The breakdown of a margin goes through the recipe: it has one
    entry for every ingredient, in the order of the recipe, under the
    upper-cased ingredient name and with the count used in the cost;
    [craftLayers] is the greatest layer count among the entries, or 0; and
    in a store whose rows have layers that fit their source it is 0 exactly
    when every ingredient was priced from a base source. *)
Theorem margin_breakdown_follows_recipe (fuel : nat) (itemName : string)
    (w : world) (m : margin) (w' : world) :
  computeMarginForItem E fuel itemName w = Done (Some m, w') ->
  Forall2 (fun ing b =>
             upperOf (item ing) = Done (b_item b)
             /\ b_count b = orOne (count ing))
    (ingredients (parseRecipeSlots (getRecipeCached E itemName w).1))
    (m_breakdown m)
  /\ m_breakdown m <> []
  /\ (forall b, b ∈ m_breakdown m -> b_layers b <= m_craftLayers m)
  /\ (m_craftLayers m = 0
      \/ exists b, b ∈ m_breakdown m /\ b_layers b = m_craftLayers m)
  /\ (layeredStore w ->
      (forall b, b ∈ m_breakdown m ->
         layered (Priced (Some (b_unitPrice b)) (b_source b) (b_layers b)))
      /\ (m_craftLayers m = 0 <->
          forall b, b ∈ m_breakdown m -> baseSource (b_source b))).
Proof.
  intros H. pose proof H as H0. apply computeMarginForItem_inv in H
    as [([=] & _)|(bz & bzSell & recipe & w2 & Hbz & Hsell & Hrec & H)].
  destruct H as [([=] & _)|(Htr & looped & w3 & Hloop & H)].
  destruct looped as [[[total breakdown] maxLayers]|]; [|by destruct H].
  destruct H as [[= ->] ->]. cbn [m_breakdown m_craftLayers].
  rewrite Hrec. cbn [fst].
  destruct (ingredients (parseRecipeSlots recipe)) as [|ing ings] eqn:Hings.
  { unfold computeMarginForItem in H0.
    by rewrite Hbz, Hsell, Hrec, Htr, Hings in H0. }
  apply (marginLoop_inv _ _ _ _ _ _ ∅) in Hloop
    as [(ents & v' & Hall & [= -> -> ->])
       |(? & ? & ? & ? & ? & ? & ? & _ & _ & _ & [=])].
  cbn [app].
  destruct (marginLayerStep_fold ents 0) as (H1 & H2 & H3). cbn in H1, H2, H3.
  set (top := fold_left marginLayerStep ents 0) in *.
  split; [by eapply AllPriced_names|]. split.
  { apply AllPriced_length in Hall. by destruct ents. }
  split; [done|]. split.
  { destruct H3 as [H3|(b & Hb & H3)]; [by left|right; by exists b]. }
  intros Hw.
  assert (layeredStore w2) as Hw2.
  { apply getRecipeCached_framed in Hrec as [_ Hp]. intros n row.
    rewrite Hp. apply Hw. }
  destruct (AllPriced_keeps (fun _ w => layeredStore w) layered _ _ _ _ _ _ _
              (freshResolve_keeps fuel) Hw2 Hall) as [_ Hes].
  split; [done|]. split.
  - intros Htop b Hb. destruct (Hes b Hb) as [[_ Hl]|[Hs _]]; [|done].
    cbn in Hl. specialize (H2 b Hb). lia.
  - intros Hbase. destruct H3 as [H3|(b & Hb & H3)]; [done|].
    destruct (Hes b Hb) as [[Hs _]|[_ Hl]]; cbn in *; [|lia].
    destruct (Hbase b Hb) as [Hb1|[Hb1|Hb1]]; congruence.
Qed.

End Breakdown.

Lemma margin_breakdown_follows_recipe_witness :
  exists m w',
    computeMarginForItem Sample.env0 2 "PICK" Sample.world0 = Done (Some m, w')
    /\ m_breakdown m
       = [Breakdown "COBBLESTONE" (VInt 2) 10 "bazaar" 0;
          Breakdown "STICK" (VInt 1) 5 "bazaar" 0]
    /\ m_craftLayers m = 0
    /\ forall b, b ∈ m_breakdown m -> b_layers b <= m_craftLayers m.
Proof.
  assert (exists m w',
            computeMarginForItem Sample.env0 2 "PICK" Sample.world0
            = Done (Some m, w')
            /\ m_breakdown m
               = [Breakdown "COBBLESTONE" (VInt 2) 10 "bazaar" 0;
                  Breakdown "STICK" (VInt 1) 5 "bazaar" 0]
            /\ m_craftLayers m = 0) as (m & w' & Hrun & Hbd & Hlay).
  { vm_compute. eexists _, _. repeat split; reflexivity. }
  exists m, w'.
  destruct (margin_breakdown_follows_recipe Sample.env0 2 "PICK" Sample.world0
              m w' Hrun) as (_ & _ & Hmax & _).
  exact (conj Hrun (conj Hbd (conj Hlay Hmax))).
Defined.

(** ** A recipe made of bazaar products *)

Section BazaarRecipe.

Context (E : env).

(** One ingredient with a buy quote: priced from the quote at its first
    occurrence, from the row then written at a later one. *)
Lemma quoted_ingredient_priced (fuel : nat) (w0 w1 : world) (id : string)
    (q : Q) :
  id <> "" ->
  buyOf (bazaarPrices w0 !! toUpperCase id) = Some q ->
  prices w0 !! toUpperCase id = None ->
  quotedSince w0 w1 ->
  exists v' w2,
    getItemPrice E (S fuel) (toUpperCase id) ∅ w1
    = Done (Some (Priced (Some (round q)) "bazaar" 0), v', w2)
    /\ quotedSince w0 w2.
Proof.
  intros Hid Hq Hrow (Hb & Hc & Hcalls & Hrec & Hmar & Hp).
  set (name := toUpperCase id).
  assert (toUpperCase name = name) as Hup by apply toUpperCase_idem.
  assert (name <> "") as Hne.
  { unfold name. intros H. by apply (proj1 (toUpperCase_empty _)) in H. }
  destruct (Hp name) as [Hsame|(q' & Hq' & Hnew)].
  - exists ({[name]} ∪ ∅),
      (upsert_price name (PriceRow (Some (round q)) "bazaar" 0 (nowTs w1)) w1).
    split.
    + apply getItemPrice_Resolved_2. constructor 3; rewrite ?Hup; [done| |].
      { apply not_elem_of_empty. }
      apply Sourced_bazaar.
      * fold name in Hrow. by rewrite Hsame, Hrow.
      * by rewrite Hb.
    + repeat split; try done. intros k. cbn.
      destruct (decide (name = k)) as [<-|Hk].
      * right. exists q. split; [done|].
        rewrite lookup_insert_eq. unfold nowTs. by rewrite Hc.
      * rewrite lookup_insert_ne by done. apply Hp.
  - fold name in Hq. rewrite Hq in Hq'. injection Hq' as <-.
    exists ({[name]} ∪ ∅), w1. split; [|by repeat split].
    apply getItemPrice_Resolved_2. constructor 3; rewrite ?Hup; [done| |].
    { apply not_elem_of_empty. }
    pose proof (Sourced_cache E (getItemPrice E fuel) name (nowTs w1)
                  ({[name]} ∪ ∅) w1
                  (PriceRow (Some (round q)) "bazaar" 0 (clock w0))) as Hs.
    apply Hs. rewrite Hnew. unfold freshRow, nowTs. cbn [updatedAt].
    rewrite Hc, Z.sub_diag. done.
Qed.

Lemma quoted_ingredients_priced (fuel : nat) (w0 : world)
    (ings : list ingredient) :
  (forall ing, ing ∈ ings -> quotedIngredient w0 ing) ->
  forall w1 v,
    quotedSince w0 w1 ->
    exists es v' w2,
      AllPriced (freshResolve E (S fuel)) ings v w1 es v' w2
      /\ Forall2 (quotedLine w0) ings es
      /\ quotedSince w0 w2.
Proof.
  induction ings as [|ing ings IH]; intros Hall w1 v Hw1.
  - exists [], v, w1. split; [constructor|]. by split.
  - destruct (Hall ing) as (id & n & q & -> & Hid & Hq & Hrow);
      [apply elem_of_cons; by left|].
    destruct (quoted_ingredient_priced fuel w0 w1 id q Hid Hq Hrow Hw1)
      as (v1 & w2 & Hres & Hw2).
    destruct (IH (fun i Hi => Hall i (list_elem_of_further _ _ _ Hi)) w2 v1 Hw2)
      as (es & v' & w3 & Hrest & Hlines & Hw3).
    eexists (_ :: es), v', w3. split; [|split; [|done]].
    + eapply (AllPriced_cons _ (Ingredient (VString id) (VInt n)));
        [done|exact Hres|done|apply toNumber_orOne_VInt|exact Hrest].
    + constructor; [|done]. by exists id, n, q.
Qed.

Lemma quoted_layers (w0 : world) (ings : list ingredient)
    (es : list breakdown_entry) :
  Forall2 (quotedLine w0) ings es -> fold_left marginLayerStep es 0 = 0.
Proof.
  induction 1 as [|ing b ings es (id & n & q & _ & _ & ->) _ IH]; [done|].
  exact IH.
Qed.

(** X14. A recipe made of bazaar products is priced from the bazaar alone.
    When the item has a sell quote and every ingredient of its recipe is a
    string id with an integer count, has a buy quote and no price row yet,
    [computeMarginForItem] succeeds: the breakdown gives every ingredient
    its rounded buy quote with source bazaar and layers 0, an ingredient
    that fills several slots included; [craftLayers] is 0; and pricing the
    ingredients takes no provider call and no time. *)
Theorem bazaar_recipe_margin (fuel : nat) (itemName : string) (w : world)
    (bz : quote) (bzSell : Q) (recipe : value) (w2 : world) :
  bazaarPrices w !! itemName = Some bz ->
  sell bz = Some bzSell ->
  getRecipeCached E itemName w = (recipe, w2) ->
  truthy recipe = true ->
  ingredients (parseRecipeSlots recipe) <> [] ->
  (forall ing, ing ∈ ingredients (parseRecipeSlots recipe) ->
               quotedIngredient w ing) ->
  exists m w',
    computeMarginForItem E (S fuel) itemName w = Done (Some m, w')
    /\ Forall2 (quotedLine w) (ingredients (parseRecipeSlots recipe))
         (m_breakdown m)
    /\ m_costPerUnit m
       = round (sumCost (m_breakdown m)
                / inject_Z (outputCount (parseRecipeSlots recipe)))
    /\ m_sellPrice m = round bzSell
    /\ m_craftLayers m = 0
    /\ calls w' = calls w2 /\ clock w' = clock w2.
Proof.
  intros Hbz Hsell Hrec Htr Hne Hall.
  assert (forall ing, ing ∈ ingredients (parseRecipeSlots recipe) ->
                      quotedIngredient w2 ing) as Hall2.
  { pose proof Hrec as Hrec'.
    apply getRecipeCached_framed in Hrec' as [(_ & Hb & _) Hp].
    intros ing Hin. destruct (Hall ing Hin) as (id & n & q & H1 & H2 & H3 & H4).
    exists id, n, q. by rewrite Hb, Hp. }
  assert (quotedSince w2 w2) as Hw2 by (repeat split; auto).
  destruct (quoted_ingredients_priced fuel w2 _ Hall2 w2 ∅ Hw2)
    as (es & v' & w3 & Hpriced & Hlines & (Hb3 & Hc3 & Hcalls3 & _)).
  pose proof (marginLoop_priced E (S fuel) _ 0 [] 0 _ _ _ _ _ Hpriced) as Hloop.
  cbn [app] in Hloop.
  assert (Forall2 (quotedLine w) (ingredients (parseRecipeSlots recipe)) es)
    as Hlines'.
  { pose proof Hrec as Hrec'.
    apply getRecipeCached_framed in Hrec' as [(_ & Hb & _) _].
    eapply Forall2_impl; [exact Hlines|].
    intros ing b (id & n & q & H1 & H2 & H3). exists id, n, q.
    by rewrite <- Hb. }
  unfold computeMarginForItem. rewrite Hbz, Hsell, Hrec, Htr. cbn [negb].
  destruct (ingredients (parseRecipeSlots recipe)) as [|ing ings] eqn:Hings;
    [done|].
  rewrite Hloop. cbn [obind]. eexists _, _. split; [reflexivity|].
  cbn [m_breakdown m_costPerUnit m_sellPrice m_craftLayers].
  split; [done|]. split; [done|]. split; [done|].
  split; [by eapply quoted_layers|]. by cbn.
Qed.

End BazaarRecipe.

Lemma plank_ingredients_quoted :
  forall ing,
    ing ∈ ingredients (parseRecipeSlots Scenario.plankRecipe) ->
    quotedIngredient Scenario.worldPlank ing.
Proof.
  intros ing Hin.
  assert (ing = Ingredient (VString "LOG") (VInt 1)) as ->.
  { vm_compute in Hin.
    repeat (apply elem_of_cons in Hin as [->|Hin]; [done|]).
    by apply elem_of_nil in Hin. }
  exists "LOG", 1, (10 # 1)%Q. split; [done|]. split; [done|].
  split; reflexivity.
Qed.

Lemma bazaar_recipe_margin_witness :
  exists m w',
    computeMarginForItem Scenario.envPlank 1 "PLANK" Scenario.worldPlank
    = Done (Some m, w')
    /\ Forall2 (quotedLine Scenario.worldPlank)
         (ingredients (parseRecipeSlots Scenario.plankRecipe)) (m_breakdown m)
    /\ m_sellPrice m = round (30 # 1)
    /\ m_craftLayers m = 0.
Proof.
  assert (exists w2,
            getRecipeCached Scenario.envPlank "PLANK" Scenario.worldPlank
            = (Scenario.plankRecipe, w2)) as [w2 Hrec].
  { vm_compute. by eexists. }
  destruct (bazaar_recipe_margin Scenario.envPlank 0 "PLANK"
              Scenario.worldPlank (Quote None (Some (30 # 1)) 0) (30 # 1)
              Scenario.plankRecipe w2 eq_refl eq_refl Hrec eq_refl
              ltac:(discriminate) plank_ingredients_quoted)
    as (m & w' & Hrun & Hlines & _ & Hsell & Hlay & _).
  exists m, w'. exact (conj Hrun (conj Hlines (conj Hsell Hlay))).
Defined.


(** ** Number formatting *)

Lemma digit_of_digitChar (d : Z) :
  0 <= d < 10 -> digit_of (digitChar d) = Some d.
Proof.
  intros Hd.
  assert (d = 0 \/ d = 1 \/ d = 2 \/ d = 3 \/ d = 4 \/ d = 5 \/ d = 6
          \/ d = 7 \/ d = 8 \/ d = 9) as H by lia.
  repeat (destruct H as [->|H]; [reflexivity|]). by subst.
Qed.

Lemma digit_not_special (c : ascii) :
  is_Some (digit_of c) ->
  c <> ","%char /\ c <> "-"%char /\ c <> "+"%char /\ is_ws c = false.
Proof.
  intros [d Hd].
  repeat split; try (intros ->; discriminate Hd).
  unfold digit_of in Hd. unfold is_ws.
  destruct (N.leb_spec 48 (N_of_ascii c)); [|done].
  destruct (N.leb_spec 9 (N_of_ascii c)); cbn;
    destruct (N.leb_spec (N_of_ascii c) 13); cbn; try lia;
    destruct (N.eqb_spec (N_of_ascii c) 32); cbn; try lia; done.
Qed.

Lemma digitsOf_digits (fuel : nat) (n : Z) (acc : list ascii) :
  0 <= n ->
  Forall (fun c => is_Some (digit_of c)) acc ->
  Forall (fun c => is_Some (digit_of c)) (digitsOf fuel n acc).
Proof.
  revert n acc. induction fuel as [|fuel IH]; intros n acc Hn Hacc; [done|].
  cbn [digitsOf].
  assert (Forall (fun c => is_Some (digit_of c)) (digitChar (n mod 10) :: acc))
    as Hacc'.
  { constructor; [|done]. rewrite digit_of_digitChar; [by eexists|].
    apply Z.mod_pos_bound. lia. }
  destruct (Z.ltb_spec n 10); [done|]. apply IH; [|done].
  apply Z.div_pos; lia.
Qed.

Lemma digitsOf_value (fuel : nat) (n : Z) (acc : list ascii) :
  0 <= n < 2 ^ Z.of_nat fuel ->
  valueOf (digitsOf fuel n acc) = n * 10 ^ Z.of_nat (length acc) + valueOf acc.
Proof.
  revert n acc. induction fuel as [|fuel IH]; intros n acc Hn.
  - cbn in Hn. assert (n = 0) as -> by lia. cbn [digitsOf]. lia.
  - cbn [digitsOf].
    assert (default 0 (digit_of (digitChar (n mod 10))) = n mod 10) as Hd.
    { rewrite digit_of_digitChar; [done|]. apply Z.mod_pos_bound. lia. }
    destruct (Z.ltb_spec n 10) as [Hlt|Hge].
    + cbn [valueOf]. rewrite Hd, Z.mod_small by lia. done.
    + rewrite IH.
      * cbn [valueOf length]. rewrite Hd, Nat2Z.inj_succ, Z.pow_succ_r by lia.
        rewrite (Z.div_mod n 10) at 3 by lia. ring.
      * rewrite Nat2Z.inj_succ, Z.pow_succ_r in Hn by lia.
        split; [apply Z.div_pos; lia|].
        apply Z.div_lt_upper_bound; lia.
Qed.

Lemma decimal_value (n : Z) : 0 <= n -> valueOf (decimal n) = n.
Proof.
  intros Hn. unfold decimal. rewrite digitsOf_value; [cbn; lia|].
  split; [done|]. rewrite Nat2Z.inj_succ, Z2Nat.id by apply Z.log2_nonneg.
  destruct (Z.eq_dec n 0) as [->|Hne]; [done|].
  apply Z.log2_spec. lia.
Qed.

Lemma decimal_digits (n : Z) :
  0 <= n -> Forall (fun c => is_Some (digit_of c)) (decimal n).
Proof. intros Hn. by apply digitsOf_digits. Qed.

Lemma digitsOf_cons (fuel : nat) (n : Z) (acc : list ascii) :
  exists c rest, digitsOf (S fuel) n acc = c :: rest.
Proof.
  revert n acc. induction fuel as [|fuel IH]; intros n acc.
  - cbn. destruct (n <? 10)%Z; eauto.
  - cbn [digitsOf]. destruct (n <? 10)%Z; [eauto|]. apply IH.
Qed.

Lemma digits_prefix_value (s : list ascii) (a : Z) :
  Forall (fun c => is_Some (digit_of c)) s ->
  digits_prefix (string_of_list_ascii s) (Some a)
  = Some (a * 10 ^ Z.of_nat (length s) + valueOf s).
Proof.
  revert a. induction s as [|c s IH]; intros a Hs.
  - cbn. f_equal. lia.
  - apply Forall_cons in Hs as [[d Hd] Hs].
    cbn [string_of_list_ascii digits_prefix]. rewrite Hd, IH by done.
    cbn [valueOf length]. rewrite Hd. cbn [from_option].
    rewrite Nat2Z.inj_succ, Z.pow_succ_r by lia. f_equal. unfold id. ring.
Qed.

Lemma parseInt_minus (r : string) :
  parseInt (String "-" r)
  = match digits_prefix r None with
    | Some n => Some (- n)
    | None => None
    end.
Proof. reflexivity. Qed.

Lemma parseInt_unsigned (c : ascii) (r : string) :
  is_ws c = false -> c <> "-"%char -> c <> "+"%char ->
  parseInt (String c r) = digits_prefix (String c r) None.
Proof.
  intros Hws Hminus Hplus. unfold parseInt. cbn [trim_start]. rewrite Hws.
  assert (match String c r with
          | String "-" r' => (true, r')
          | String "+" r' => (false, r')
          | _ => (false, String c r)
          end = (false, String c r)) as ->.
  { destruct c as [[] [] [] [] [] [] [] []]; done. }
  by destruct (digits_prefix (String c r) None).
Qed.

Lemma parseInt_digits (s : list ascii) :
  s <> [] ->
  Forall (fun c => is_Some (digit_of c)) s ->
  parseInt (string_of_list_ascii s) = Some (valueOf s)
  /\ parseInt (String "-" (string_of_list_ascii s)) = Some (- valueOf s).
Proof.
  intros Hne Hs. destruct s as [|c s]; [done|].
  pose proof Hs as Hs'. apply Forall_cons in Hs' as [Hc Hrest].
  destruct (digit_not_special c Hc) as (_ & Hminus & Hplus & Hws).
  destruct Hc as [d Hd].
  assert (digits_prefix (string_of_list_ascii (c :: s)) None
          = Some (valueOf (c :: s))) as Hval.
  { cbn [string_of_list_ascii digits_prefix]. rewrite Hd.
    rewrite digits_prefix_value by done. cbn [valueOf].
    rewrite Hd. cbn [from_option]. f_equal; unfold id; ring. }
  split.
  - cbn [string_of_list_ascii] in *. by rewrite parseInt_unsigned.
  - by rewrite parseInt_minus, Hval.
Qed.

Lemma withoutCommas_list (l : list ascii) :
  withoutCommas (string_of_list_ascii l)
  = string_of_list_ascii (filter (fun c => c <> ","%char) l).
Proof.
  induction l as [|c l IH]; [done|]. cbn [string_of_list_ascii withoutCommas].
  rewrite filter_cons. destruct (Ascii.eqb_spec c ","%char) as [->|Hc].
  - by rewrite decide_False by (by intros H).
  - rewrite decide_True by done. cbn. by rewrite IH.
Qed.

Lemma filter_keeps_all (l : list ascii) :
  Forall (fun c => c <> ","%char) l -> filter (fun c => c <> ","%char) l = l.
Proof.
  induction 1 as [|c l Hc _ IH]; [done|]. by rewrite filter_cons_True, IH.
Qed.

Lemma groupThousands_bounded (n : nat) (ds : list ascii) :
  (length ds <= n)%nat ->
  Forall (fun c => c <> ","%char) ds ->
  filter (fun c => c <> ","%char) (groupThousands ds) = ds.
Proof.
  revert ds. induction n as [|n IH]; intros ds Hlen Hds.
  - destruct ds; [done|cbn in Hlen; lia].
  - destruct ds as [|a [|b [|c [|d rest]]]];
      try (cbn [groupThousands]; by apply filter_keeps_all).
    change (groupThousands (a :: b :: c :: d :: rest))
      with (a :: b :: c :: ","%char :: groupThousands (d :: rest)).
    apply Forall_cons in Hds as [Ha Hds].
    apply Forall_cons in Hds as [Hb Hds].
    apply Forall_cons in Hds as [Hc Hds].
    rewrite !filter_cons.
    rewrite (decide_True _ _ Ha), (decide_True _ _ Hb), (decide_True _ _ Hc).
    rewrite decide_False by (by intros H).
    rewrite IH; [done| |done]. cbn in Hlen |- *. lia.
Qed.

Lemma grouped_without_commas (ds : list ascii) :
  Forall (fun c => is_Some (digit_of c)) ds ->
  filter (fun c => c <> ","%char) (reverse (groupThousands (reverse ds))) = ds.
Proof.
  intros Hds. rewrite filter_reverse.
  rewrite (groupThousands_bounded (length (reverse ds))); [|done|].
  - apply reverse_involutive.
  - apply Forall_reverse. eapply Forall_impl; [exact Hds|].
    intros c Hc. by destruct (digit_not_special c Hc).
Qed.

Lemma toLocaleString_parse (z : Z) :
  parseInt (withoutCommas (toLocaleString z)) = Some z.
Proof.
  unfold toLocaleString.
  pose proof (decimal_digits (Z.abs z) (Z.abs_nonneg z)) as Hd.
  pose proof (decimal_value (Z.abs z) (Z.abs_nonneg z)) as Hv.
  assert (decimal (Z.abs z) <> []) as Hne.
  { unfold decimal. by destruct (digitsOf_cons (Z.to_nat (Z.log2 (Z.abs z)))
                                   (Z.abs z) []) as (c & rest & ->). }
  destruct (parseInt_digits _ Hne Hd) as [Hpos Hneg].
  rewrite withoutCommas_list. destruct (Z.ltb_spec z 0).
  - rewrite filter_cons, decide_True by done.
    rewrite grouped_without_commas by done.
    cbn [string_of_list_ascii]. rewrite Hneg, Hv. f_equal. lia.
  - rewrite grouped_without_commas by done. rewrite Hpos, Hv. f_equal. lia.
Qed.

(** X15. What [formatWithCommas] prints can be read back: with the commas
    taken out, [parseInt] gives the rounded number again.  Hence two
    amounts print alike only when they round to the same integer. *)
Theorem formatWithCommas_reads_back (n : number) :
  parseInt (withoutCommas (formatWithCommas n)) = Some (formatInt n)
  /\ forall m, formatWithCommas n = formatWithCommas m ->
               formatInt n = formatInt m.
Proof.
  split; [apply toLocaleString_parse|].
  intros m H. apply (f_equal (fun s => parseInt (withoutCommas s))) in H.
  unfold formatWithCommas in H. rewrite !toLocaleString_parse in H.
  by injection H.
Qed.

(** ** The list of the best margins *)

#[local] Instance byProfit_total : Total byProfit.
Proof. intros a b. unfold byProfit. lia. Qed.

#[local] Instance byProfit_trans : Transitive byProfit.
Proof. intros a b c. unfold byProfit. lia. Qed.

(** What [ORDER BY profit DESC LIMIT n] selects, whatever the order among
    rows of equal profit. *)
Lemma topByProfit_spec (n : nat) (m : gmap string margin_row) :
  let rows := topByProfit n m in
  length rows = Nat.min n (size m)
  /\ NoDup rows.*1
  /\ (forall k r, (k, r) ∈ rows -> m !! k = Some r)
  /\ StronglySorted byProfit rows
  /\ (forall k r, m !! k = Some r -> k ∉ rows.*1 ->
        (n <= size m)%nat
        /\ forall a, a ∈ rows -> profit r <= profit a.2).
Proof.
  unfold topByProfit.
  set (l := merge_sort byProfit (map_to_list m)).
  assert (l ≡ₚ map_to_list m) as Hperm by apply merge_sort_Permutation.
  assert (StronglySorted byProfit l) as Hsorted
    by apply (StronglySorted_merge_sort _).
  assert (length l = size m) as Hlen.
  { rewrite Hperm. by rewrite length_map_to_list. }
  assert (NoDup l.*1) as Hnd.
  { rewrite Hperm. apply NoDup_fst_map_to_list. }
  rewrite <- (take_drop n l) in Hsorted, Hnd.
  cbn zeta. split; [by rewrite length_take, Hlen|]. split.
  { rewrite fmap_app in Hnd. by apply NoDup_app in Hnd as [? _]. }
  split.
  { intros k r Hin. apply elem_of_map_to_list. rewrite <- Hperm.
    rewrite <- (take_drop n l). apply elem_of_app. by left. }
  split; [by eapply StronglySorted_app_1_l|].
  intros k r Hk Hout.
  assert ((k, r) ∈ drop n l) as Hdrop.
  { apply elem_of_map_to_list in Hk. rewrite <- Hperm in Hk.
    rewrite <- (take_drop n l) in Hk. apply elem_of_app in Hk as [Hk|Hk];
      [|done].
    destruct Hout. apply list_elem_of_fmap. by exists (k, r). }
  split.
  - destruct (decide (n <= length l)%nat) as [|Hgt]; [lia|].
    rewrite drop_ge in Hdrop by lia. by apply elem_of_nil in Hdrop.
  - intros a Ha.
    exact (StronglySorted_app_1_elem_of byProfit _ _ a (k, r) Hsorted Ha Hdrop).
Qed.

(** X16. [getTop25Formatted] lists the rows of greatest profit: at most 25
    of them (all rows when the table has fewer), each row of the margin
    table at most once, in descending order of profit, and no row left out
    has a greater profit than a row listed.  [priceSource] and
    [craftLayers] are those of the price row now stored under the same key,
    and null when there is none. *)
Theorem top_margins_ranking (w : world) :
  let rows := topByProfit 25 (craft_margins w) in
  t_item <$> getTop25Formatted w = rows.*1
  /\ length (getTop25Formatted w) = Nat.min 25 (size (craft_margins w))
  /\ NoDup (t_item <$> getTop25Formatted w)
  /\ (forall k r, (k, r) ∈ rows -> craft_margins w !! k = Some r)
  /\ StronglySorted byProfit rows
  /\ (forall k r, craft_margins w !! k = Some r -> k ∉ rows.*1 ->
        forall a, a ∈ rows -> profit r <= profit a.2)
  /\ (forall e, e ∈ getTop25Formatted w ->
        t_priceSource e = source <$> prices w !! t_item e
        /\ t_craftLayers e = layers <$> prices w !! t_item e).
Proof.
  destruct (topByProfit_spec 25 (craft_margins w))
    as (Hlen & Hnd & Hin & Hsorted & Hout).
  cbn zeta in *.
  assert (t_item <$> getTop25Formatted w
          = (topByProfit 25 (craft_margins w)).*1) as Hitems.
  { unfold getTop25Formatted. rewrite <- list_fmap_compose.
    by apply list_fmap_ext. }
  split; [done|]. split.
  { unfold getTop25Formatted. by rewrite length_fmap. }
  split; [by rewrite Hitems|]. split; [done|]. split; [done|]. split.
  { intros k r Hk Hno a Ha. destruct (Hout _ _ Hk Hno) as [_ H]. by apply H. }
  intros e He. unfold getTop25Formatted in He.
  apply list_elem_of_fmap in He as (r & -> & _). done.
Qed.

Section FreshMargin.

Context (E : env).

(** X17. A margin just computed is on the list, with the figures that
    [computeMarginForItem] returned, unless the list is full of rows that
    are at least as profitable. *)
Theorem fresh_margin_is_listed (fuel : nat) (itemName : string) (w : world)
    (m : margin) (w' : world) :
  computeMarginForItem E fuel itemName w = Done (Some m, w') ->
  (exists e,
     e ∈ getTop25Formatted w' /\ t_item e = itemName
     /\ t_sellPrice e = formatWithCommas (Num (inject_Z (m_sellPrice m)))
     /\ t_costPerUnit e = formatWithCommas (Num (inject_Z (m_costPerUnit m)))
     /\ t_profit e = formatWithCommas (Num (inject_Z (m_profit m)))
     /\ t_marginPercent e = toFixed (m_marginPercent m) ++ "%")
  \/ (length (getTop25Formatted w') = 25%nat
      /\ forall a, a ∈ topByProfit 25 (craft_margins w') ->
                   m_profit m <= profit a.2).
Proof.
  intros H.
  assert (exists t,
            craft_margins w' !! itemName
            = Some (MarginRow (m_costPerUnit m) (m_sellPrice m) (m_profit m)
                      (m_marginPercent m) t)) as [t Hrow].
  { apply computeMarginForItem_inv in H
      as [([=] & _)|(bz & bzSell & recipe & w2 & _ & _ & _ & H)].
    destruct H as [([=] & _)|(_ & looped & w3 & _ & H)].
    destruct looped as [[[total breakdown] maxLayers]|]; [|by destruct H].
    destruct H as [[= ->] ->]. eexists. apply lookup_insert_eq. }
  destruct (topByProfit_spec 25 (craft_margins w'))
    as (Hlen & Hnd & Hin & Hsorted & Hout). cbn zeta in *.
  destruct (decide (itemName ∈ (topByProfit 25 (craft_margins w')).*1))
    as [Hlisted|Hno].
  - left. apply list_elem_of_fmap in Hlisted as ([k r] & -> & Hkr).
    pose proof (Hin _ _ Hkr) as Hr. cbn [fst] in Hrow. rewrite Hrow in Hr.
    exists (formatRow w' (k, r)). split.
    { unfold getTop25Formatted. apply list_elem_of_fmap. by eexists. }
    injection Hr as <-. by repeat split.
  - right. destruct (Hout _ _ Hrow Hno) as [Hfull Hbest]. split.
    + unfold getTop25Formatted. rewrite length_fmap, Hlen. lia.
    + intros a Ha. by apply Hbest in Ha.
Qed.

End FreshMargin.

Lemma fresh_margin_is_listed_witness :
  exists m w' e,
    computeMarginForItem Sample.env0 2 "PICK" Sample.world0 = Done (Some m, w')
    /\ e ∈ getTop25Formatted w' /\ t_item e = "PICK"
    /\ t_profit e = formatWithCommas (Num (inject_Z (m_profit m))).
Proof.
  assert (exists m w',
            computeMarginForItem Sample.env0 2 "PICK" Sample.world0
            = Done (Some m, w')
            /\ length (getTop25Formatted w') <> 25%nat)
    as (m & w' & Hrun & Hlen).
  { pose (o := computeMarginForItem Sample.env0 2 "PICK" Sample.world0).
    exists (match o with
            | Done (Some m0, _) => m0
            | _ => Margin "" 0 0 0 0 [] 0
            end),
           (match o with
            | Done (_, w1) => w1
            | Raise _ => Sample.world0
            end).
    split; [vm_compute; reflexivity|]. vm_compute. lia. }
  destruct (fresh_margin_is_listed Sample.env0 2 "PICK" Sample.world0 m w' Hrun)
    as [(e & He & Hitem & _ & _ & Hprofit & _)|[Hfull _]];
    [|destruct (Hlen Hfull)].
  by exists m, w', e.
Defined.

(** ** The bazaar feed *)

Lemma quickStatus_TypeError (info : value) (k : string) :
  quickStatus info k = Raise TypeError -> info = VNull.
Proof.
  unfold quickStatus. destruct info; try done;
    (destruct (nullish _ None) as [qs|]; [|done]);
    (destruct (nullish (own qs k) None) as [[| |[]| | |]|]; done).
Qed.

Lemma quotesOf_null (now : Z) (es : list (string * value))
    (out : gmap string quote) (id : string) :
  (id, VNull) ∈ es -> forall m, quotesOf now es out <> Done m.
Proof.
  revert out. induction es as [|[k info] es IH]; intros out Hin m.
  - by apply elem_of_nil in Hin.
  - cbn [quotesOf]. apply elem_of_cons in Hin as [[= <- <-]|Hin]; [done|].
    destruct (quickStatus info "buyPrice"); cbn [obind]; [|done].
    destruct (quickStatus info "sellPrice"); cbn [obind]; [|done].
    by apply IH.
Qed.

Lemma quotesOf_raised (now : Z) (es : list (string * value))
    (out : gmap string quote) :
  quotesOf now es out = Raise TypeError -> exists id, (id, VNull) ∈ es.
Proof.
  revert out. induction es as [|[k info] es IH]; intros out; [done|].
  cbn [quotesOf].
  destruct (quickStatus info "buyPrice") as [b|e] eqn:Hb; cbn [obind].
  - destruct (quickStatus info "sellPrice") as [s|e] eqn:Hs; cbn [obind].
    + intros [id Hid]%IH. exists id. apply elem_of_cons. by right.
    + intros [= ->]. apply quickStatus_TypeError in Hs as ->.
      exists k. apply elem_of_cons. by left.
  - intros [= ->]. apply quickStatus_TypeError in Hb as ->.
    exists k. apply elem_of_cons. by left.
Qed.

Lemma quotesOf_Done (now : Z) (es : list (string * value))
    (out m : gmap string quote) :
  quotesOf now es out = Done m ->
  NoDup es.*1 ->
  (forall id info, (id, info) ∈ es ->
     exists b s,
       quickStatus info "buyPrice" = Done b
       /\ quickStatus info "sellPrice" = Done s
       /\ m !! id = Some (Quote b s now))
  /\ (forall id, id ∉ es.*1 -> m !! id = out !! id).
Proof.
  revert out. induction es as [|[k info] es IH]; intros out.
  - intros [= <-] _. split; [|done]. intros id info Hin.
    by apply elem_of_nil in Hin.
  - cbn [quotesOf].
    destruct (quickStatus info "buyPrice") as [b|e] eqn:Hb; cbn [obind];
      [|done].
    destruct (quickStatus info "sellPrice") as [s|e] eqn:Hs; cbn [obind];
      [|done].
    intros Hrest Hnd. cbn in Hnd. apply NoDup_cons in Hnd as [Hk Hnd].
    destruct (IH _ Hrest Hnd) as [Hin Hout]. split.
    + intros id info' [[= -> ->]|Hin']%elem_of_cons; [|by apply Hin].
      exists b, s. split; [done|]. split; [done|].
      by rewrite (Hout _ Hk), lookup_insert_eq.
    + intros id Hid. cbn in Hid. apply not_elem_of_cons in Hid as [Hne Hid].
      by rewrite (Hout _ Hid), lookup_insert_ne.
Qed.

(** X18. A refresh of the bazaar snapshot that fails changes nothing but
    the time.  [fetchBazaarPrices] never writes a table, the auction cache
    or the trace; and when the feed gives no body, a body that is falsy or
    has no [products], or products of which one is [null], the snapshot it
    leaves is the one it found. *)
Theorem failed_refresh_keeps_snapshot (feed : Z -> reply) (w w' : world) :
  fetchBazaarPrices feed w = Done w' ->
  prices w' = prices w /\ recipes w' = recipes w
  /\ craft_margins w' = craft_margins w /\ lbinCache w' = lbinCache w
  /\ calls w' = calls w
  /\ clock w' = clock w + elapsed (feed (clock w))
  /\ (body (feed (clock w)) = None -> bazaarPrices w' = bazaarPrices w)
  /\ (forall data,
        body (feed (clock w)) = Some data ->
        truthy data = false \/ own data "products" = None
        \/ (exists products,
              own data "products" = Some products
              /\ (truthy products = false
                  \/ exists id, (id, VNull) ∈ objectEntries products)) ->
        bazaarPrices w' = bazaarPrices w).
Proof.
  unfold fetchBazaarPrices.
  destruct (body (feed (clock w))) as [data|] eqn:Hbody.
  2:{ intros [= <-]. by repeat split. }
  destruct (truthy data) eqn:Hdata; cbn [negb].
  2:{ intros [= <-]. by repeat split. }
  destruct (own data "products") as [products|] eqn:Hproducts.
  2:{ intros [= <-]. by repeat split. }
  destruct (truthy products) eqn:Htruthy; cbn [negb].
  2:{ intros [= <-]. by repeat split. }
  destruct (quotesOf _ _ _) as [out|[]] eqn:Hquotes; [| |done..].
  - intros [= <-]. repeat split; try done.
    intros data' [= <-] [H|[H|(p & Hp & H)]]; [congruence..|].
    rewrite Hproducts in Hp. injection Hp as <-.
    destruct H as [H|[id Hid]]; [congruence|].
    by eapply quotesOf_null in Hid.
  - intros [= <-]. by repeat split.
Qed.

(** X19. A refresh that succeeds replaces the snapshot as a whole.  When
    the feed's [products] have distinct keys and none is [null], the new
    snapshot quotes exactly the products of the feed, each with the buy and
    sell price of its [quick_status] (null when missing) and the time of the
    refresh; an item the feed no longer lists has no quote any more. *)
Theorem refresh_replaces_snapshot (feed : Z -> reply) (w w' : world)
    (data products : value) :
  fetchBazaarPrices feed w = Done w' ->
  body (feed (clock w)) = Some data ->
  own data "products" = Some products ->
  truthy products = true ->
  NoDup (objectEntries products).*1 ->
  (forall id, (id, VNull) ∉ objectEntries products) ->
  (forall id info,
     (id, info) ∈ objectEntries products ->
     exists b s,
       quickStatus info "buyPrice" = Done b
       /\ quickStatus info "sellPrice" = Done s
       /\ bazaarPrices w' !! id = Some (Quote b s (clock w')))
  /\ (forall id,
        id ∉ (objectEntries products).*1 -> bazaarPrices w' !! id = None).
Proof.
  unfold fetchBazaarPrices. intros H Hbody Hproducts Htruthy Hnd Hnonull.
  rewrite Hbody, Hproducts, Htruthy in H.
  assert (truthy data = true) as Hdata by (by destruct data).
  rewrite Hdata in H. cbn [negb] in H.
  destruct (quotesOf _ _ _) as [out|[]] eqn:Hquotes; [| |done..].
  - injection H as <-. cbn [bazaarPrices set_bazaar clock].
    destruct (quotesOf_Done _ _ _ _ Hquotes Hnd) as [Hin Hout].
    split; [done|]. intros id Hid. by rewrite (Hout _ Hid), lookup_empty.
  - apply quotesOf_raised in Hquotes as [id Hid]. by apply Hnonull in Hid.
Qed.

Lemma failed_refresh_keeps_snapshot_witness :
  exists w',
    fetchBazaarPrices brokenFeed Sample.world0 = Done w'
    /\ bazaarPrices w' = bazaarPrices Sample.world0
    /\ clock w' = clock Sample.world0 + 40.
Proof.
  assert (exists w', fetchBazaarPrices brokenFeed Sample.world0 = Done w')
    as [w' Hrun].
  { vm_compute. by eexists. }
  exists w'.
  destruct (failed_refresh_keeps_snapshot brokenFeed Sample.world0 w' Hrun)
    as (_ & _ & _ & _ & _ & Hclock & _ & Hkeep).
  refine (conj Hrun (conj (Hkeep brokenBody eq_refl _) Hclock)).
  right. right. eexists. split; [reflexivity|]. right. exists "GEM".
  cbn. apply elem_of_cons. right. apply elem_of_cons. by left.
Defined.

Lemma refresh_replaces_snapshot_witness :
  exists w',
    fetchBazaarPrices feed0 Sample.world0 = Done w'
    /\ bazaarPrices w' !! "LOG"
       = Some (Quote (Some (21 # 2)%Q) (Some (inject_Z 9)) (clock w'))
    /\ bazaarPrices w' !! "GEM" = Some (Quote None None (clock w'))
    /\ is_Some (bazaarPrices Sample.world0 !! "COBBLESTONE")
    /\ bazaarPrices w' !! "COBBLESTONE" = None.
Proof.
  assert (exists w', fetchBazaarPrices feed0 Sample.world0 = Done w')
    as [w' Hrun].
  { vm_compute. by eexists. }
  exists w'.
  assert (NoDup (objectEntries
                   (VObject
                      [("LOG",
                        VObject [("quick_status",
                                  VObject [("buyPrice", VNumber (Num (21 # 2)));
                                           ("sellPrice", VInt 9)])]);
                       ("GEM", VObject [])])).*1) as Hnd.
  { apply (bool_decide_unpack _). by vm_compute. }
  destruct (refresh_replaces_snapshot feed0 Sample.world0 w' feedBody _ Hrun
              eq_refl eq_refl eq_refl Hnd) as [Hin Hout].
  { intros id Hid. cbn in Hid.
    repeat (apply elem_of_cons in Hid as [[=]|Hid]).
    by apply elem_of_nil in Hid. }
  destruct (Hin "LOG" _ ltac:(cbn; apply elem_of_cons; by left))
    as (b1 & s1 & [= <-] & [= <-] & Hlog).
  destruct (Hin "GEM" _
              ltac:(cbn; apply elem_of_cons; right; apply elem_of_cons; by left))
    as (b2 & s2 & [= <-] & [= <-] & Hgem).
  refine (conj Hrun (conj Hlog (conj Hgem (conj _ (Hout "COBBLESTONE" _))))).
  - by eexists.
  - cbn. intros Hc. repeat (apply elem_of_cons in Hc as [[=]|Hc]).
    by apply elem_of_nil in Hc.
Defined.

(** ** An ingredient that is not a string *)

Section OddIngredient.

Context (E : env).

Lemma craftLoop_throws resolve pre ing post total maxLayer visited w
    entries visited1 w1 e :
  AllPriced resolve pre visited w entries visited1 w1 ->
  upperOf (item ing) = Raise e ->
  craftLoop resolve (pre ++ ing :: post) total maxLayer visited w = Raise e.
Proof.
  intros H. revert total maxLayer.
  induction H as [|ing0 rest v w name [price src lay] v1 w1 unit c entries v2 w2
                   Hup Hres Hp Hc _ IH]; intros total maxLayer Hthrow.
  - cbn [app craftLoop]. by rewrite Hthrow.
  - cbn in Hp. subst price.
    cbn [app craftLoop]. rewrite Hup. cbn [obind]. rewrite Hres. cbn [obind].
    rewrite Hc. cbn [obind]. by apply IH.
Qed.

(** X20. An ingredient whose item is not a string throws.  A structured
    slot may carry any truthy [item]; when the craft branch reaches such an
    ingredient, the ingredients before it having been priced, upper-casing
    its item raises a TypeError that [getItemPrice] does not catch: the call
    neither returns null nor falls through to the fallback table. *)
Theorem non_string_item_throws (fuel : nat) (itemName : string)
    (visited : gset string) (w w1 : world) (recipe : value) (w2 : world)
    (pre : list ingredient) (ing : ingredient) (post : list ingredient)
    (ents : list breakdown_entry) (visited3 : gset string) (w3 : world) :
  let name := toUpperCase itemName in
  itemName <> "" ->
  name ∉ visited ->
  noCachedSource name (nowTs w) w ->
  fetchLBIN E name w = (None, w1) ->
  getRecipeCached E name w1 = (recipe, w2) ->
  truthy recipe = true ->
  ingredients (parseRecipeSlots recipe) = (pre ++ ing :: post)%list ->
  AllPriced (getItemPrice E fuel) pre ({[name]} ∪ visited) w2 ents visited3 w3 ->
  (forall s, item ing <> VString s) ->
  getItemPrice E (S fuel) itemName visited w = Raise TypeError.
Proof.
  intros name Hne Hnv (H1 & H2 & H3) H4 H5 H6 H7 Hall Hitem.
  assert (upperOf (item ing) = Raise TypeError) as Hthrow.
  { destruct (item ing) as [| | |s| |]; try done. by destruct (Hitem s). }
  cbn [getItemPrice].
  destruct (String.eqb_spec itemName ""); [done|].
  rewrite decide_False by done. fold name.
  rewrite H1, H2, H3, H4, H5, H6.
  destruct (ingredients (parseRecipeSlots recipe)) as [|i0 rest] eqn:Hings.
  { by destruct pre. }
  rewrite H7.
  by rewrite (craftLoop_throws _ _ _ _ _ _ _ _ _ _ _ _ Hall Hthrow).
Qed.

End OddIngredient.

Lemma non_string_item_throws_witness :
  getItemPrice envOdd 2 "odd" ∅ Sample.world0 = Raise TypeError.
Proof.
  pose (w1 := (fetchLBIN envOdd "ODD" Sample.world0).2).
  pose (w2 := (getRecipeCached envOdd "ODD" w1).2).
  pose (w3 := upsert_price "COBBLESTONE" (PriceRow (Some 10) "bazaar" 0 100012)
                w2).
  assert (fetchLBIN envOdd (toUpperCase "odd") Sample.world0 = (None, w1))
    as Hlbin by (vm_compute; reflexivity).
  assert (getRecipeCached envOdd (toUpperCase "odd") w1 = (oddRecipe, w2))
    as Hrec by (vm_compute; reflexivity).
  assert (getItemPrice envOdd 1 "COBBLESTONE" ({[toUpperCase "odd"]} ∪ ∅) w2
          = Done (Some (Priced (Some 10) "bazaar" 0),
                  {["COBBLESTONE"]} ∪ ({[toUpperCase "odd"]} ∪ ∅), w3))
    as Hcob by (vm_compute; reflexivity).
  refine (non_string_item_throws envOdd 1 "odd" ∅ Sample.world0 w1 oddRecipe
            w2 [Ingredient (VString "COBBLESTONE") (VInt 2)]
            (Ingredient (VInt 5) (VInt 1)) [] _ _ w3
            ltac:(discriminate) (not_elem_of_empty _) _ Hlbin Hrec eq_refl
            eq_refl _ ltac:(discriminate)).
  - by repeat split.
  - eapply (AllPriced_cons _ (Ingredient (VString "COBBLESTONE") (VInt 2)));
      [reflexivity|exact Hcob|reflexivity|reflexivity|constructor].
Defined.

(** ** The order of the sources *)





(** The loop of [fetchLBIN] gets through a list without [null], and ends on
    a price when it started from one or meets one. *)
Lemma lowestBin_some (arr : list value) (acc : option Q) :
  VNull ∉ arr ->
  (is_Some acc \/ exists a p, a ∈ arr /\ listingPrice a = VNumber (Num p)) ->
  exists min, lowestBin arr acc = Some (Some min).
Proof.
  revert acc. induction arr as [|a arr IH]; intros acc Hnull Hsome.
  - destruct Hsome as [[m ->]|(a & p & Ha & _)]; [by exists m|].
    by apply elem_of_nil in Ha.
  - assert (lowestBin (a :: arr) acc = lowestBin arr (lowerOf acc a)) as ->.
    { destruct a; try done. exfalso. apply Hnull, elem_of_cons. by left. }
    apply IH.
    { intros H. apply Hnull, elem_of_cons. by right. }
    destruct (lowerOf_cases acc a) as (_ & C2 & C3).
    destruct Hsome as [[m Hm]|(a0 & p & Ha0 & Hp)].
    + left. destruct (C2 m Hm) as (m1 & -> & _). by eexists.
    + apply elem_of_cons in Ha0 as [->|Ha0].
      * left. destruct (C3 p Hp) as (m1 & -> & _). by eexists.
      * right. by exists a0, p.
Qed.

Lemma lowestBin_no_null (arr : list value) (acc : option Q) (r : option Q) :
  lowestBin arr acc = Some r -> VNull ∉ arr.
Proof.
  intros H Hnull. by rewrite (lowestBin_null arr acc Hnull) in H.
Qed.

Section Order.

Context (E : env).

(** A provider's answer without an auction low: [fetchLBIN] returns null,
    and all it leaves is the call on the trace. *)
Lemma fetchLBIN_nothing (name : string) (w : world) :
  noLiveLow E name w ->
  fetchLBIN E name w
  = (None, afterCall (auctions E) (AuctionCall name) name w).
Proof.
  intros Hno.
  destruct (fetchLBIN E name w) as [res w1] eqn:H.
  apply fetchLBIN_inv in H
    as [(a & arr & min & Hbody & Hlow & _ & _)|[-> ->]]; [|done].
  exfalso. destruct (Hno _ Hbody) as [Hnull|Hnone].
  - by apply (lowestBin_no_null _ _ _ Hlow).
  - destruct (lowestBin_least _ _ _ Hlow) as ([[=]|(a0 & Ha0 & Hp)] & _).
    by apply (Hnone a0 min).
Qed.

(** A provider's answer with an auction low: [fetchLBIN] returns the least
    of the numeric prices, having written it to the cache and, rounded, to
    the price store. *)
Lemma fetchLBIN_least (name : string) (w : world) (arr : list value) :
  body (auctions E name (clock w)) = Some (VArray arr) ->
  VNull ∉ arr ->
  (exists a p, a ∈ arr /\ listingPrice a = VNumber (Num p)) ->
  let w0 := afterCall (auctions E) (AuctionCall name) name w in
  exists min,
    leastListing arr min
    /\ fetchLBIN E name w
       = (Some min,
          upsert_price name (PriceRow (Some (round min)) "lbin" 0 (nowTs w0))
            (set_lbin name (Lbin min (nowTs w0)) w0)).
Proof.
  intros Hbody Hnull Hsome w0.
  destruct (lowestBin_some arr None Hnull (or_intror Hsome)) as (min & Hlow).
  exists min.
  destruct (lowestBin_least _ _ _ Hlow) as ([[=]|Hex] & _ & Hmin).
  split; [by split|].
  destruct arr as [|a arr].
  { destruct Hsome as (a & p & Ha & _). by apply elem_of_nil in Ha. }
  exact (fetchLBIN_found E name w a arr min Hbody Hlow).
Qed.



End Order.



(** ** Cycles, and what the visited set holds *)


Section Termination.

Context (E : env) (U : gset string).


End Termination.


(** ** The auction low *)

Section LiveLow.

Context (E : env).

(** C7 (as the code has it). Past the fresh row and the bazaar quote, an
    unexpired cached auction low is returned with source [lbin] and layers
    0 and written to the price store.  When there is none the provider is
    asked: if its listings hold no [null] and at least one has a number as
    the first non-null of [startingBid], [price], [bin], [bid], the call
    returns the least such number, rounded, with source [lbin] and layers 0,
    and this result too is in the price store when the call ends,
    [fetchLBIN] having written it there and in the in-memory cache; if a
    listing is [null], [fetchLBIN] returns null and writes neither. *)
Theorem auction_low_is_persisted (fuel : nat) (itemName : string)
    (visited : gset string) (w : world) :
  let name := toUpperCase itemName in
  itemName <> "" ->
  name ∉ visited ->
  freshRow (nowTs w) (prices w !! name) = None ->
  buyOf (bazaarPrices w !! name) = None ->
  (forall e,
     freshLbin (nowTs w) (lbinCache w !! name) = Some e ->
     exists w',
       getItemPrice E (S fuel) itemName visited w
       = Done (Some (Priced (Some (round (lbin_price e))) "lbin" 0),
               {[name]} ∪ visited, w')
       /\ prices w' !! name
          = Some (PriceRow (Some (round (lbin_price e))) "lbin" 0 (nowTs w)))
  /\ (freshLbin (nowTs w) (lbinCache w !! name) = None ->
      forall arr,
        body (auctions E name (clock w)) = Some (VArray arr) ->
        let t := clock w + elapsed (auctions E name (clock w)) in
        (VNull ∉ arr ->
         (exists l p, l ∈ arr /\ listingPrice l = VNumber (Num p)) ->
         exists min w',
           (exists l, l ∈ arr /\ listingPrice l = VNumber (Num min))
           /\ (forall l p, l ∈ arr -> listingPrice l = VNumber (Num p) ->
                           (min <= p)%Q)
           /\ getItemPrice E (S fuel) itemName visited w
              = Done (Some (Priced (Some (round min)) "lbin" 0),
                      {[name]} ∪ visited, w')
           /\ prices w' !! name
              = Some (PriceRow (Some (round min)) "lbin" 0 t)
           /\ lbinCache w' !! name = Some (Lbin min t)
           /\ calls w' = (calls w ++ [AuctionCall name])%list)
        /\ (VNull ∈ arr ->
            exists w1,
              fetchLBIN E name w = (None, w1)
              /\ prices w1 = prices w /\ lbinCache w1 = lbinCache w)).
Proof.
  intros name Hne Hnv H1 H2. split.
  - intros e H3. eexists. split.
    + apply getItemPrice_Resolved_2. constructor 3; [done..|].
      by apply Sourced_lbinCached.
    + apply lookup_insert_eq.
  - intros H3 arr Hbody t. split.
    + intros Hnull Hsome.
      destruct (fetchLBIN_least E name w arr Hbody Hnull Hsome)
        as (min & [Hex Hmin] & Hf).
      exists min. eexists. split; [done|]. split; [done|]. split.
      * apply getItemPrice_Resolved_2. constructor 3; [done..|].
        by eapply Sourced_lbinLive.
      * split; [apply lookup_insert_eq|]. split; [apply lookup_insert_eq|done].
    + intros Hnull.
      exists (afterCall (auctions E) (AuctionCall name) name w).
      split; [|split; reflexivity].
      apply fetchLBIN_nothing. intros arr' Hbody'. left. congruence.
Qed.

End LiveLow.

Lemma auction_low_is_persisted_witness :
  "diamond" <> ""
  /\ (toUpperCase "diamond" ∉ (∅ : gset string))
  /\ exists min w',
       getItemPrice Scenario.envAuction 1 "diamond" ∅ Sample.emptyWorld
       = Done (Some (Priced (Some (round min)) "lbin" 0),
               {[toUpperCase "diamond"]} ∪ ∅, w')
       /\ round min = 1200
       /\ prices w' !! "DIAMOND"
          = Some (PriceRow (Some (round min)) "lbin" 0 100005).
Proof.
  assert ("diamond" <> "") as H1 by discriminate.
  assert (toUpperCase "diamond" ∉ (∅ : gset string)) as H2
    by apply not_elem_of_empty.
  refine (conj H1 (conj H2 _)).
  destruct (auction_low_is_persisted Scenario.envAuction 0 "diamond" ∅
              Sample.emptyWorld H1 H2 eq_refl eq_refl) as [_ Hlive].
  destruct (Hlive eq_refl _ eq_refl) as [Hfound _].
  assert (VNull ∉ [VObject [("startingBid", VInt 1500)];
                    VObject [("price", VNumber (Num (6002 # 5)))];
                    VObject [("bin", VString "cheap")]]) as Hnull.
  { intros H. repeat (apply elem_of_cons in H as [H|H]; [discriminate H|]).
    by apply elem_of_nil in H. }
  destruct (Hfound Hnull) as (min & w' & _ & _ & Hrun & Hrow & _).
  { exists (VObject [("startingBid", VInt 1500)]), (1500 # 1)%Q.
    split; [apply elem_of_cons; by left|reflexivity]. }
  exists min, w'. split; [exact Hrun|]. split; [|exact Hrow].
  assert (exists v0 w0,
            getItemPrice Scenario.envAuction 1 "diamond" ∅ Sample.emptyWorld
            = Done (Some (Priced (Some 1200) "lbin" 0), v0, w0))
    as (v0 & w0 & Hrun0).
  { vm_compute. eexists _, _. reflexivity. }
  rewrite Hrun0 in Hrun. by injection Hrun as -> _ _.
Defined.

(** ** The figures of a margin record *)



Section Figures.

Context (E : env).


End Figures.



(** ** The craft branch at two recipes *)


